(** * olama: the news Sync Engine of [src/militery/main.py]

    A shallow embedding of the scraper, the summarisation adapter, the
    background worker and the route handlers of [main.py], and the
    properties of the specification checked against it.

    Conventions of the embedding.
    - A Python [str] is a [string]; one [ascii] stands for one character
      of the Python string (code points 0..255).
    - A call that may raise returns an [outcome]; a [try/except] is a
      [match] on it.
    - Everything outside the process (the network, the HTML parser, the
      clock, the model, [urllib.parse.urlparse]) is an oracle of the
      [World] record.  A theorem quantified over [World] holds whatever
      the outside answers. *)

From Stdlib Require Import String Ascii List Bool Arith ZArith Lia.
From Stdlib Require Import DecimalString.
Import ListNotations.
Local Open Scope string_scope.
Local Open Scope list_scope.
Local Open Scope nat_scope.

(** String concatenation, written apart from list concatenation. *)
Infix "+++" := String.append (right associativity, at level 60).

(** ** Python strings *)

Module PyStr.

(** [s.startswith(p)] *)
Definition startswith (p s : string) : bool := String.prefix p s.

(** [needle in hay] *)
Fixpoint contains (needle hay : string) : bool :=
  match hay with
  | EmptyString => String.prefix needle EmptyString
  | String _ rest => String.prefix needle hay || contains needle rest
  end.

(** [s.count(c)] for a one-character [c] *)
Fixpoint count (c : ascii) (s : string) : nat :=
  match s with
  | EmptyString => 0
  | String d rest => (if Ascii.eqb d c then 1 else 0) + count c rest
  end.

(** The characters [str.isspace] holds of, among code points 0..255. *)
Definition isspace (c : ascii) : bool :=
  let n := nat_of_ascii c in
  ((9 <=? n) && (n <=? 13)) || ((28 <=? n) && (n <=? 32))
  || (n =? 133) || (n =? 160).

Fixpoint lstrip_by (p : ascii -> bool) (s : string) : string :=
  match s with
  | EmptyString => EmptyString
  | String c rest => if p c then lstrip_by p rest else s
  end.

Definition rev (s : string) : string :=
  string_of_list_ascii (List.rev (list_ascii_of_string s)).

Definition strip_by (p : ascii -> bool) (s : string) : string :=
  rev (lstrip_by p (rev (lstrip_by p s))).

(** [s.strip()] *)
Definition strip (s : string) : string := strip_by isspace s.

(** [s.strip("/")] *)
Definition strip_slash (s : string) : string :=
  strip_by (fun c => Ascii.eqb c "/"%char) s.

(** [s[:n]] *)
Definition take (n : nat) (s : string) : string := String.substring 0 n s.

(** [sep.join(parts)] *)
Fixpoint join (sep : string) (parts : list string) : string :=
  match parts with
  | [] => EmptyString
  | [p] => p
  | p :: rest => p +++ sep +++ join sep rest
  end.

(** [str(n)] for a natural number and for an integer *)
Definition of_nat (n : nat) : string := NilZero.string_of_uint (Nat.to_uint n).
Definition of_Z (z : Z) : string := NilZero.string_of_int (Z.to_int z).

(** [s.split(" ")] and the pieces of it that are words *)
Fixpoint split_space_aux (cur : string) (s : string) : list string :=
  match s with
  | EmptyString => [rev cur]
  | String c rest =>
      if Ascii.eqb c " "%char then rev cur :: split_space_aux EmptyString rest
      else split_space_aux (String c cur) rest
  end.

Definition split_space (s : string) : list string :=
  split_space_aux EmptyString s.

End PyStr.

(** ** Exceptions *)

Inductive exn : Type :=
  | ValueError | TypeError | AttributeError | KeyError
  | RequestException | RuntimeError.

Inductive outcome (A : Type) : Type :=
  | Return (a : A)
  | Raise (e : exn).
Arguments Return {A} a.
Arguments Raise {A} e.

Definition bind {A B : Type} (m : outcome A) (k : A -> outcome B) : outcome B :=
  match m with
  | Return a => k a
  | Raise e => Raise e
  end.

Notation "x <- m ;; k" := (bind m (fun x => k))
  (at level 61, m at next level, right associativity).

(** ** Values decoded from JSON

    What [response.json()] can hand to the scraper.  A float is kept as
    the text [str] prints for it and whether it is non-zero, which is
    all the scraper reads of it. *)

#[warnings="-register-all"]
Inductive json : Type :=
  | JNull
  | JBool (b : bool)
  | JInt (z : Z)
  | JFloat (printed : string) (nonzero : bool)
  | JStr (s : string)
  | JArr (items : list json)
  | JObj (fields : list (string * json)).

Module Py.

(** Truth value of an object in an [if]. *)
Definition truthy (v : json) : bool :=
  match v with
  | JNull => false
  | JBool b => b
  | JInt z => negb (Z.eqb z 0)
  | JFloat _ nz => nz
  | JStr s => negb (String.eqb s EmptyString)
  | JArr l => match l with [] => false | _ => true end
  | JObj l => match l with [] => false | _ => true end
  end.

(** [d.get(key)] on a decoded object: the binding of [key], if any. *)
Fixpoint lookup (key : string) (fields : list (string * json)) : option json :=
  match fields with
  | [] => None
  | (k, v) :: rest => if String.eqb k key then Some v else lookup key rest
  end.

(** [v.get(key, default)]: only a dict has [get]. *)
Definition get (v : json) (key : string) (default : json) : outcome json :=
  match v with
  | JObj fields =>
      Return (match lookup key fields with Some x => x | None => default end)
  | _ => Raise AttributeError
  end.

(** [for item in v]: the elements a [for] loop visits. *)
Definition iter (v : json) : outcome (list json) :=
  match v with
  | JArr l => Return l
  | JObj fields => Return (map (fun kv => JStr (fst kv)) fields)
  | JStr s => Return (map (fun c => JStr (String c EmptyString))
                          (list_ascii_of_string s))
  | _ => Raise TypeError
  end.

Definition backslash : ascii := ascii_of_nat 92.
Definition dquote : ascii := ascii_of_nat 34.

Definition hexdigit (n : nat) : ascii :=
  ascii_of_nat (if n <? 10 then 48 + n else 87 + n).

(** One character of [repr] of a string quoted with [q]. *)
Definition repr_char (q : ascii) (c : ascii) : string :=
  let n := nat_of_ascii c in
  if Ascii.eqb c q || Ascii.eqb c backslash then String backslash (String c EmptyString)
  else if n =? 9 then "\t"
  else if n =? 10 then "\n"
  else if n =? 13 then "\r"
  else if (n <? 32) || (n =? 127) || ((128 <=? n) && (n <=? 160)) || (n =? 173)
       then String backslash (String "x"%char
              (String (hexdigit (n / 16)) (String (hexdigit (n mod 16)) EmptyString)))
  else String c EmptyString.

Definition repr_str (s : string) : string :=
  let q := if PyStr.contains "'" s && negb (PyStr.contains (String dquote EmptyString) s)
           then dquote else "'"%char in
  String q (String.concat EmptyString (map (repr_char q) (list_ascii_of_string s)))
  +++ String q EmptyString.

(** [repr(v)] *)
Fixpoint repr (v : json) : string :=
  match v with
  | JNull => "None"
  | JBool true => "True"
  | JBool false => "False"
  | JInt z => PyStr.of_Z z
  | JFloat p _ => p
  | JStr s => repr_str s
  | JArr l => "[" +++ PyStr.join ", " (map repr l) +++ "]"
  | JObj l =>
      "{" +++ PyStr.join ", "
               (map (fun kv => repr_str (fst kv) +++ ": " +++ repr (snd kv)) l)
      +++ "}"
  end.

(** [str(v)], which is what an f-string field prints. *)
Definition str (v : json) : string :=
  match v with
  | JStr s => s
  | _ => repr v
  end.

(** [v[:n]]: strings and lists can be sliced. *)
Definition slice_to (n : nat) (v : json) : outcome json :=
  match v with
  | JStr s => Return (JStr (PyStr.take n s))
  | JArr l => Return (JArr (firstn n l))
  | _ => Raise TypeError
  end.

End Py.

(** ** The outside world *)

(** What [urlparse] returns, as far as the scraper reads it. *)
Record ParseResult : Type := {
  scheme : string;
  netloc : string;
  path : string
}.

(** An [<a href=...>] element that survived the removal of the noise
    elements: the result of [get_text()] and the [href] attribute. *)
Record Anchor : Type := {
  text : string;
  href : string
}.

Record World : Type := {
  (** [datetime.now().strftime("%H:%M:%S")] and [strftime("%H:%M")] *)
  now_hms : string;
  now_hm : string;
  (** [urllib.parse.urlparse(url)] *)
  urlparse : string -> outcome ParseResult;
  (** [requests.get(api_url, timeout=5).json()] *)
  get_json : string -> outcome json;
  (** [requests.get(url, ...)], the parse, the removal of noise and
      [soup.find_all('a', href=True)] (lines 82-90) *)
  get_anchors : string -> outcome (list Anchor);
  (** [requests.get(url, ...)], the parse and [p.text] of every
      [soup.find_all('p')] (lines 116-118) *)
  get_paragraphs : string -> outcome (list string);
  (** [summarizer(txt, ...)[0]['summary_text']] (lines 124-125) *)
  summarizer : string -> outcome string;
  (** [str.upper] *)
  upper : string -> string
}.

(** ** The operational log *)

(** [add_log(msg)] at time [w]: append the stamped entry and evict the
    oldest one when more than 30 are held. *)
Definition add_log (w : World) (msg : string) (SYSTEM_LOGS : list string)
  : list string :=
  let entry := "[" +++ now_hms w +++ "] " +++ msg in
  let logs := SYSTEM_LOGS ++ [entry] in
  if 30 <? length logs then tl logs else logs.

(** ** Discovery: [universal_intercept] *)

Record Candidate : Type := {
  title : json;
  link : string
}.

(** The headline test of line 97. *)
Definition is_headline (title : string) : bool :=
  (35 <? String.length title) && (4 <=? PyStr.count " " title).

(** Lines 98-101: the link an anchor resolves to. *)
Definition resolve (w : World) (url : string) (href : string) : outcome string :=
  if negb (PyStr.startswith "http" href) then
    p <- urlparse w url ;;
    Return (scheme p +++ "://" +++ netloc p
            +++ (if PyStr.startswith "/" href then href else "/" +++ href))
  else Return href.

(** [any(n['link'] == href for n in news)] *)
Definition has_link (href : string) (news : list Candidate) : bool :=
  existsb (fun n => String.eqb (link n) href) news.

(** Lines 92-104: the body of the loop over the anchors, without the
    test that leaves the loop. *)
Definition scan_link (w : World) (url : string) (a : Anchor)
    (news : list Candidate) : outcome (list Candidate) :=
  let title := PyStr.strip (text a) in
  if is_headline title then
    href <- resolve w url (href a) ;;
    if negb (has_link href news)
    then Return (news ++ [{| title := JStr title; link := href |}])
    else Return news
  else Return news.

(** Lines 91-106: the loop.  It ends at the end of the anchors, at the
    first exception (with what was collected so far) or once six
    candidates are held. *)
Fixpoint scan_links (w : World) (url : string) (links : list Anchor)
    (news : list Candidate) : list Candidate * option exn :=
  match links with
  | [] => (news, None)
  | a :: rest =>
      match scan_link w url a news with
      | Raise e => (news, Some e)
      | Return news' =>
          if 6 <=? length news' then (news', None)
          else scan_links w url rest news'
      end
  end.

(** Lines 74-76: the body of the loop over the items of the API. *)
Definition api_item (item : json) (news : list Candidate)
  : outcome (list Candidate) :=
  story <- Py.get item "story" (JObj []) ;;
  headline <- Py.get story "headline" JNull ;;
  if Py.truthy headline then
    slug <- Py.get story "slug" JNull ;;
    Return (news ++ [{| title := headline;
                        link := "https://www.prothomalo.com/" +++ Py.str slug |}])
  else Return news.

Fixpoint api_items (items : list json) (news : list Candidate)
  : list Candidate * option exn :=
  match items with
  | [] => (news, None)
  | item :: rest =>
      match api_item item news with
      | Raise e => (news, Some e)
      | Return news' => api_items rest news'
      end
  end.

(** Lines 71-76: the request and the loop, inside the [try].  The list
    is the state of [news] when the block ends; the exception, if any,
    is the one that ended it. *)
Definition api_fetch (w : World) (slug : string) : outcome (list json) :=
  let api_url := "https://www.prothomalo.com/api/v1/collections/" +++ slug
                 +++ "?offset=0&limit=5" in
  data <- get_json w api_url ;;
  items <- Py.get data "items" (JArr []) ;;
  Py.iter items.

Definition api_mode (w : World) (slug : string) : list Candidate * option exn :=
  match api_fetch w slug with
  | Raise e => ([], Some e)
  | Return items => api_items items []
  end.

(** Lines 80-111: the heuristic mode, entered with [news]. *)
Definition heuristic_mode (w : World) (url source_name : string)
    (news : list Candidate) (SYSTEM_LOGS : list string)
  : list Candidate * list string :=
  match get_anchors w url with
  | Raise _ =>
      (news, add_log w ("INTERCEPT_FAILURE: " +++ source_name +++ " unreachable.")
                     SYSTEM_LOGS)
  | Return links =>
      match scan_links w url links news with
      | (news', None) => (news', SYSTEM_LOGS)
      | (news', Some _) =>
          (news', add_log w ("INTERCEPT_FAILURE: " +++ source_name
                             +++ " unreachable.") SYSTEM_LOGS)
      end
  end.

(** Lines 68-69: the collection the API is asked for. *)
Definition slug_of (url : string) (p : ParseResult) : string :=
  let slug := PyStr.strip_slash (path p) in
  if PyStr.contains "business" url || PyStr.contains "economy" url
  then "business" else slug.

(** [universal_intercept(url, source_name)]: the result or the exception
    that leaves the function, and the log afterwards. *)
Definition universal_intercept (w : World) (url source_name : string)
    (SYSTEM_LOGS : list string) : outcome (list Candidate) * list string :=
  if String.eqb url EmptyString then (Return [], SYSTEM_LOGS)
  else if PyStr.contains "prothomalo" url then
    match urlparse w url with
    | Raise e => (Raise e, SYSTEM_LOGS)
    | Return p =>
        match api_mode w (slug_of url p) with
        | (x :: news, None) => (Return (x :: news), SYSTEM_LOGS)
        | (news, _) =>
            let (news', logs) := heuristic_mode w url source_name news SYSTEM_LOGS in
            (Return news', logs)
        end
    end
  else
    let (news', logs) := heuristic_mode w url source_name [] SYSTEM_LOGS in
    (Return news', logs).

(** The call takes the generic path with no candidate yet: the URL is
    not of the API outlet, or the API block left [news] empty. *)
Definition generic_path (w : World) (url : string) : Prop :=
  PyStr.contains "prothomalo" url = false \/
  exists p, urlparse w url = Return p /\ fst (api_mode w (slug_of url p)) = [].

(** ** Summarisation: [get_deep_summary] *)

(** What a call does to the outside: a page fetched, the model run. *)
Inductive Call : Type :=
  | HttpGet (url : string)
  | Infer (txt : string).

Definition MSG_INITIALIZING : string :=
  "AI CORE INITIALIZING. PREVIEW UNAVAILABLE.".
Definition MSG_INSUFFICIENT : string :=
  "Dossier Notice: Link contains insufficient textual data for AI synthesis.".
Definition MSG_INTERRUPTED : string :=
  "Deep Link Analysis Interrupted.".

(** Line 120: [" ".join([p.text for p in paragraphs[:8]])] *)
Definition article_text (paragraphs : list string) : string :=
  PyStr.join " " (firstn 8 paragraphs).

(** Lines 116-125, the body of the [try]: the value returned or the
    exception raised, and the calls made on the way. *)
Definition deep_summary_body (w : World) (url : string)
  : outcome string * list Call :=
  match get_paragraphs w url with
  | Raise e => (Raise e, [HttpGet url])
  | Return paragraphs =>
      let txt := article_text paragraphs in
      if String.length txt <? 200 then (Return MSG_INSUFFICIENT, [HttpGet url])
      else
        let input := PyStr.take 2500 txt in
        (summarizer w input, [HttpGet url; Infer input])
  end.

(** [get_deep_summary(url)], with the flag [is_model_ready] as read at
    the call. *)
Definition get_deep_summary (w : World) (is_model_ready : bool) (url : string)
  : outcome string * list Call :=
  if negb is_model_ready then (Return MSG_INITIALIZING, [])
  else
    match deep_summary_body w url with
    | (Return s, calls) => (Return s, calls)
    | (Raise _, calls) => (Return MSG_INTERRUPTED, calls)
    end.

(** ** The registry and the cache *)

(** An entry of [TARGET_GRID]; [paths] keeps the order of the dict. *)
Record Outlet : Type := {
  otype : string;
  paths : list (string * string)
}.

(** A dict with string keys, in insertion order. *)
Definition Registry : Type := list (string * Outlet).

(** [d[name] = cfg]: a key already present keeps its place. *)
Fixpoint dict_set (name : string) (cfg : Outlet) (d : Registry) : Registry :=
  match d with
  | [] => [(name, cfg)]
  | (k, v) :: rest =>
      if String.eqb k name then (k, cfg) :: rest
      else (k, v) :: dict_set name cfg rest
  end.

(** [if name in d: del d[name]] *)
Fixpoint dict_del (name : string) (d : Registry) : Registry :=
  match d with
  | [] => []
  | (k, v) :: rest =>
      if String.eqb k name then rest else (k, v) :: dict_del name rest
  end.

(** Lines 32-37 *)
Definition TARGET_GRID_initial : Registry :=
  [("Prothom Alo",
    {| otype := "national";
       paths := [("Politics", "https://www.prothomalo.com/politics");
                 ("Economy", "https://www.prothomalo.com/business");
                 ("National", "https://www.prothomalo.com/bangladesh")] |})].

(** An element of [INTEL_CACHE] (lines 144-148). *)
Record IntelItem : Type := {
  item_title : json;
  item_link : string;
  source : string;
  sector : string;
  summary : string;
  item_type : string;
  time : string
}.

(** [x in xs] for a list of strings *)
Definition str_in (x : string) (xs : list string) : bool :=
  existsb (String.eqb x) xs.

(** Line 183: the items [fetch_news] keeps. *)
Definition fetch_news_filter (INTEL_CACHE : list IntelItem)
    (selected_sources selected_sectors : list string) : list IntelItem :=
  filter (fun n => str_in (source n) selected_sources
                   && (str_in (sector n) selected_sectors
                       || String.eqb (item_type n) "international"))
         INTEL_CACHE.

(** The response of [fetch_news]: the keys ["news"] and ["logs"]. *)
Record NewsResponse : Type := {
  news : list IntelItem;
  logs : list string
}.

(** ** The process: globals, the worker thread and the handlers *)

(** Where the thread of [background_worker] stands, with the part of
    each [for] loop that is still to be visited. *)
Inductive Pc : Type :=
  | AtTop                                   (* line 132 *)
  | AtCopy                                  (* line 134 *)
  | InOutlets (todo : Registry)             (* line 136 *)
  | InSections (name : string) (cfg : Outlet)
      (todo_sections : list (string * string)) (todo : Registry)  (* line 137 *)
  | InItems (name : string) (cfg : Outlet) (sector : string)
      (todo_items : list Candidate)
      (todo_sections : list (string * string)) (todo : Registry)  (* line 141 *)
  | AtPublish                               (* line 150 *)
  | AtLog                                   (* line 151 *)
  | AtWait                                  (* line 154 *)
  | AtClear                                 (* line 155 *)
  | Crashed.                                (* an exception left the thread *)

(** A list object, by its address in [heap]. *)
Definition Ref : Type := nat.

Record State : Type := {
  (* the list objects made by [INTEL_CACHE = []] (line 27) and by
     [temp_cache = []] (line 132), in the order they were made *)
  heap : list (list IntelItem);
  (* the globals of lines 24-29 and 32 *)
  TARGET_GRID : Registry;
  INTEL_CACHE : Ref;
  SYSTEM_LOGS : list string;
  SYNC_INTERVAL_MINS : Z;
  trigger_sync_now : bool;
  is_model_ready : bool;
  (* the locals of [background_worker] *)
  pc : Pc;
  temp_cache : Ref;
  current_targets : Registry
}.

Definition set_heap (h : list (list IntelItem)) (s : State) : State :=
  {| heap := h;
     TARGET_GRID := TARGET_GRID s;
     INTEL_CACHE := INTEL_CACHE s;
     SYSTEM_LOGS := SYSTEM_LOGS s;
     SYNC_INTERVAL_MINS := SYNC_INTERVAL_MINS s;
     trigger_sync_now := trigger_sync_now s;
     is_model_ready := is_model_ready s;
     pc := pc s;
     temp_cache := temp_cache s;
     current_targets := current_targets s |}.

Definition set_pc (p : Pc) (s : State) : State :=
  {| heap := heap s;
     TARGET_GRID := TARGET_GRID s;
     INTEL_CACHE := INTEL_CACHE s;
     SYSTEM_LOGS := SYSTEM_LOGS s;
     SYNC_INTERVAL_MINS := SYNC_INTERVAL_MINS s;
     trigger_sync_now := trigger_sync_now s;
     is_model_ready := is_model_ready s;
     pc := p;
     temp_cache := temp_cache s;
     current_targets := current_targets s |}.

Definition set_logs (l : list string) (s : State) : State :=
  {| heap := heap s;
     TARGET_GRID := TARGET_GRID s;
     INTEL_CACHE := INTEL_CACHE s;
     SYSTEM_LOGS := l;
     SYNC_INTERVAL_MINS := SYNC_INTERVAL_MINS s;
     trigger_sync_now := trigger_sync_now s;
     is_model_ready := is_model_ready s;
     pc := pc s;
     temp_cache := temp_cache s;
     current_targets := current_targets s |}.

Definition set_grid (g : Registry) (s : State) : State :=
  {| heap := heap s;
     TARGET_GRID := g;
     INTEL_CACHE := INTEL_CACHE s;
     SYSTEM_LOGS := SYSTEM_LOGS s;
     SYNC_INTERVAL_MINS := SYNC_INTERVAL_MINS s;
     trigger_sync_now := trigger_sync_now s;
     is_model_ready := is_model_ready s;
     pc := pc s;
     temp_cache := temp_cache s;
     current_targets := current_targets s |}.

Definition set_cache (a : Ref) (s : State) : State :=
  {| heap := heap s;
     TARGET_GRID := TARGET_GRID s;
     INTEL_CACHE := a;
     SYSTEM_LOGS := SYSTEM_LOGS s;
     SYNC_INTERVAL_MINS := SYNC_INTERVAL_MINS s;
     trigger_sync_now := trigger_sync_now s;
     is_model_ready := is_model_ready s;
     pc := pc s;
     temp_cache := temp_cache s;
     current_targets := current_targets s |}.

Definition set_interval (z : Z) (s : State) : State :=
  {| heap := heap s;
     TARGET_GRID := TARGET_GRID s;
     INTEL_CACHE := INTEL_CACHE s;
     SYSTEM_LOGS := SYSTEM_LOGS s;
     SYNC_INTERVAL_MINS := z;
     trigger_sync_now := trigger_sync_now s;
     is_model_ready := is_model_ready s;
     pc := pc s;
     temp_cache := temp_cache s;
     current_targets := current_targets s |}.

Definition set_trigger (b : bool) (s : State) : State :=
  {| heap := heap s;
     TARGET_GRID := TARGET_GRID s;
     INTEL_CACHE := INTEL_CACHE s;
     SYSTEM_LOGS := SYSTEM_LOGS s;
     SYNC_INTERVAL_MINS := SYNC_INTERVAL_MINS s;
     trigger_sync_now := b;
     is_model_ready := is_model_ready s;
     pc := pc s;
     temp_cache := temp_cache s;
     current_targets := current_targets s |}.

Definition set_ready (b : bool) (s : State) : State :=
  {| heap := heap s;
     TARGET_GRID := TARGET_GRID s;
     INTEL_CACHE := INTEL_CACHE s;
     SYSTEM_LOGS := SYSTEM_LOGS s;
     SYNC_INTERVAL_MINS := SYNC_INTERVAL_MINS s;
     trigger_sync_now := trigger_sync_now s;
     is_model_ready := b;
     pc := pc s;
     temp_cache := temp_cache s;
     current_targets := current_targets s |}.

Definition set_temp (a : Ref) (s : State) : State :=
  {| heap := heap s;
     TARGET_GRID := TARGET_GRID s;
     INTEL_CACHE := INTEL_CACHE s;
     SYSTEM_LOGS := SYSTEM_LOGS s;
     SYNC_INTERVAL_MINS := SYNC_INTERVAL_MINS s;
     trigger_sync_now := trigger_sync_now s;
     is_model_ready := is_model_ready s;
     pc := pc s;
     temp_cache := a;
     current_targets := current_targets s |}.

Definition set_targets (g : Registry) (s : State) : State :=
  {| heap := heap s;
     TARGET_GRID := TARGET_GRID s;
     INTEL_CACHE := INTEL_CACHE s;
     SYSTEM_LOGS := SYSTEM_LOGS s;
     SYNC_INTERVAL_MINS := SYNC_INTERVAL_MINS s;
     trigger_sync_now := trigger_sync_now s;
     is_model_ready := is_model_ready s;
     pc := pc s;
     temp_cache := temp_cache s;
     current_targets := g |}.

(** The list at an address. *)
Definition deref (s : State) (a : Ref) : list IntelItem := nth a (heap s) [].

(** What a reader of [INTEL_CACHE] sees, and what [temp_cache] holds. *)
Definition current_snapshot (s : State) : list IntelItem := deref s (INTEL_CACHE s).
Definition buffer (s : State) : list IntelItem := deref s (temp_cache s).

(** [l.append(x)] on the list object at [a]: every name bound to that
    object sees the new element. *)
Fixpoint heap_append (a : Ref) (x : IntelItem) (h : list (list IntelItem))
  : list (list IntelItem) :=
  match h, a with
  | [], _ => []
  | l :: rest, 0 => (l ++ [x]) :: rest
  | l :: rest, S a' => l :: heap_append a' x rest
  end.

(** [add_log(msg)] on the global log. *)
Definition log (w : World) (msg : string) (s : State) : State :=
  set_logs (add_log w msg (SYSTEM_LOGS s)) s.

(** The state the module leaves when it is loaded.  The locals of the
    worker are not bound yet; [temp_cache] is bound at its first step. *)
Definition initial_state : State :=
  {| heap := [[]];
     TARGET_GRID := TARGET_GRID_initial; INTEL_CACHE := 0;
     SYSTEM_LOGS := []; SYNC_INTERVAL_MINS := 5%Z;
     trigger_sync_now := false; is_model_ready := false;
     pc := AtTop; temp_cache := 0; current_targets := [] |}.

(** Lines 144-148 *)
Definition make_item (w : World) (item : Candidate) (name sector summary : string)
    (cfg : Outlet) : IntelItem :=
  {| item_title := title item; item_link := link item; source := name;
     sector := sector; summary := summary; item_type := otype cfg;
     time := now_hm w |}.

(** One step of the worker thread, in the world [w]: one statement of
    the loop, or one call of [universal_intercept], or one pass of the
    innermost loop.  [temp_cache = []] makes a new list object,
    [temp_cache.append] changes the object [temp_cache] is bound to, and
    [INTEL_CACHE = temp_cache] binds the global to that object.
    [dict(TARGET_GRID)] copies the keys and shares the entries, which no
    handler changes in place ([add_paper] binds a new entry).  [timeout] tells
    whether the interval of the wait has elapsed; a thread that is
    blocked, or dead, has no step. *)
Definition worker_step (w : World) (timeout : bool) (s : State) : option State :=
  match pc s with
  | AtTop =>
      Some (set_pc AtCopy
             (log w "SYNC_ENGINE: PROBING GLOBAL TARGET GRID..."
                  (set_temp (length (heap s)) (set_heap (heap s ++ [[]]) s))))
  | AtCopy =>
      Some (set_pc (InOutlets (TARGET_GRID s)) (set_targets (TARGET_GRID s) s))
  | InOutlets [] => Some (set_pc AtPublish s)
  | InOutlets ((name, cfg) :: todo) =>
      Some (set_pc (InSections name cfg (paths cfg) todo) s)
  | InSections name cfg [] todo => Some (set_pc (InOutlets todo) s)
  | InSections name cfg ((sector, url) :: todo_sections) todo =>
      let s1 := log w ("INTERCEPTING: " +++ upper w name +++ " -> "
                       +++ upper w sector) s in
      match universal_intercept w url name (SYSTEM_LOGS s1) with
      | (Raise _, l) => Some (set_pc Crashed (set_logs l s1))
      | (Return headlines, l) =>
          Some (set_pc (InItems name cfg sector (firstn 3 headlines)
                                todo_sections todo)
                       (set_logs l s1))
      end
  | InItems name cfg sector [] todo_sections todo =>
      Some (set_pc (InSections name cfg todo_sections todo) s)
  | InItems name cfg sector (item :: todo_items) todo_sections todo =>
      match Py.slice_to 40 (title item) with
      | Raise _ => Some (set_pc Crashed s)
      | Return t =>
          let s1 := log w ("SYNTHESIZING: " +++ Py.str t +++ "...") s in
          match fst (get_deep_summary w (is_model_ready s1) (link item)) with
          | Raise _ => Some (set_pc Crashed s1)
          | Return summary =>
              Some (set_pc (InItems name cfg sector todo_items todo_sections todo)
                     (set_heap (heap_append (temp_cache s1)
                                  (make_item w item name sector summary cfg)
                                  (heap s1)) s1))
          end
      end
  | AtPublish => Some (set_pc AtLog (set_cache (temp_cache s) s))
  | AtLog =>
      Some (set_pc AtWait
             (log w ("SYNC_ENGINE: CACHE REFRESHED. "
                     +++ PyStr.of_nat (length (current_snapshot s))
                     +++ " PACKETS READY.") s))
  | AtWait =>
      if trigger_sync_now s || timeout then Some (set_pc AtClear s) else None
  | AtClear => Some (set_pc AtTop (set_trigger false s))
  | Crashed => None
  end.

(** What happens in the process, one event at a time: a step of the
    worker thread, a request served by a handler, the end of [load_ai]. *)
Inductive Event : Type :=
  | Worker (w : World) (timeout : bool)
  | FetchNews (selected_sources selected_sectors : list string)
  | UpdateSyncTimer (w : World) (minutes : Z)
  | ForceSync (w : World)
  | AddPaper (name type pol eco nat intl_url : string)
  | DeletePaper (name : string)
  | AiLoaded (w : World)
  | AiFailed (w : World) (error : string).

(** Lines 180-184 *)
Definition fetch_news (s : State) (selected_sources selected_sectors : list string)
  : NewsResponse :=
  {| news := fetch_news_filter (current_snapshot s) selected_sources selected_sectors;
     logs := SYSTEM_LOGS s |}.

(** Lines 186-191 *)
Definition update_sync_timer (w : World) (minutes : Z) (s : State) : State :=
  log w ("SYSTEM: SYNC INTERVAL SET TO " +++ PyStr.of_Z minutes +++ " MINS.")
      (set_interval (Z.max 1 minutes) s).

(** Lines 193-197 *)
Definition force_sync (w : World) (s : State) : State :=
  set_trigger true (log w "SYSTEM: MANUAL SYNC OVERRIDE ACTIVATED." s).

(** Lines 234-240 *)
Definition add_paper (name type pol eco nat intl_url : string) (s : State) : State :=
  if String.eqb type "national" then
    set_grid (dict_set name {| otype := "national";
                               paths := [("Politics", pol); ("Economy", eco);
                                         ("National", nat)] |}
                       (TARGET_GRID s)) s
  else
    set_grid (dict_set name {| otype := "international";
                               paths := [("International", intl_url)] |}
                       (TARGET_GRID s)) s.

(** Lines 242-245 *)
Definition delete_paper (name : string) (s : State) : State :=
  set_grid (dict_del name (TARGET_GRID s)) s.

(** Lines 53-56: how [load_ai] ends. *)
Definition ai_loaded (w : World) (s : State) : State :=
  log w "AI_KERNEL: ONLINE. HIGH-PRECISION ANALYSIS ENABLED." (set_ready true s).

Definition ai_failed (w : World) (error : string) (s : State) : State :=
  log w ("AI_KERNEL_ERROR: " +++ error) s.

(** The state after an event, when the event can happen. *)
Definition exec (ev : Event) (s : State) : option State :=
  match ev with
  | Worker w timeout => worker_step w timeout s
  | FetchNews _ _ => Some s
  | UpdateSyncTimer w minutes => Some (update_sync_timer w minutes s)
  | ForceSync w => Some (force_sync w s)
  | AddPaper name type pol eco nat intl_url =>
      Some (add_paper name type pol eco nat intl_url s)
  | DeletePaper name => Some (delete_paper name s)
  | AiLoaded w => Some (ai_loaded w s)
  | AiFailed w error => Some (ai_failed w error s)
  end.

(** The states an interleaving visits, in the order it visits them;
    [None] when one of its events cannot happen where it stands. *)
Fixpoint visits (evs : list Event) (s : State) : option (list State) :=
  match evs with
  | [] => Some [s]
  | ev :: rest =>
      match exec ev s with
      | None => None
      | Some s' =>
          match visits rest s' with
          | None => None
          | Some l => Some (s :: l)
          end
      end
  end.

(** The state an interleaving ends in. *)
Fixpoint run (evs : list Event) (s : State) : option State :=
  match evs with
  | [] => Some s
  | ev :: rest =>
      match exec ev s with
      | None => None
      | Some s' => run rest s'
      end
  end.

(** ** Worlds to run the code in *)

Module Lab.

(** The longest prefix of [s] whose characters satisfy [p], and the rest. *)
Fixpoint span (p : ascii -> bool) (s : string) : string * string :=
  match s with
  | EmptyString => (EmptyString, EmptyString)
  | String c rest =>
      if p c then let (a, b) := span p rest in (String c a, b)
      else (EmptyString, s)
  end.

Definition is_alpha (c : ascii) : bool :=
  let n := nat_of_ascii c in
  ((65 <=? n) && (n <=? 90)) || ((97 <=? n) && (n <=? 122)).

Definition is_scheme_char (c : ascii) : bool :=
  let n := nat_of_ascii c in
  is_alpha c || ((48 <=? n) && (n <=? 57))
  || (n =? 43) || (n =? 45) || (n =? 46).

Definition lower_char (c : ascii) : ascii :=
  let n := nat_of_ascii c in
  if (65 <=? n) && (n <=? 90) then ascii_of_nat (n + 32) else c.

Definition upper_char (c : ascii) : ascii :=
  let n := nat_of_ascii c in
  if (97 <=? n) && (n <=? 122) then ascii_of_nat (n - 32) else c.

Definition map_string (f : ascii -> ascii) (s : string) : string :=
  string_of_list_ascii (map f (list_ascii_of_string s)).

Definition is_char (c d : ascii) : bool := Ascii.eqb c d.

(** [urlparse] of CPython on the URLs used below: the scheme before the
    first [:], the network location between [//] and the next [/], [?]
    or [#], the path up to [;], [?] or [#], and [ValueError] when the
    location has one square bracket without the other. *)
Definition py_urlparse (url : string) : outcome ParseResult :=
  let (sch, rest) :=
    match span is_scheme_char url with
    | (String c0 pre, String ":"%char rest) =>
        if is_alpha c0 then (map_string lower_char (String c0 pre), rest)
        else (EmptyString, url)
    | _ => (EmptyString, url)
    end in
  let (loc, rest) :=
    match rest with
    | String "/"%char (String "/"%char after) =>
        span (fun c => negb (is_char c "/" || is_char c "?" || is_char c "#"))
             after
    | _ => (EmptyString, rest)
    end in
  if xorb (PyStr.contains "[" loc) (PyStr.contains "]" loc)
  then Raise ValueError
  else
    let (pth, _) :=
      span (fun c => negb (is_char c ";" || is_char c "?" || is_char c "#"))
           rest in
    Return {| scheme := sch; netloc := loc; path := pth |}.

(** The text made of [n] times the character [c]. *)
Definition chars (n : nat) (c : ascii) : string :=
  string_of_list_ascii (repeat c n).

(** A world with no network and no model. *)
Definition offline : World :=
  {| now_hms := "12:00:00"; now_hm := "12:00";
     urlparse := py_urlparse;
     get_json := fun _ => Raise RequestException;
     get_anchors := fun _ => Raise RequestException;
     get_paragraphs := fun _ => Raise RequestException;
     summarizer := fun _ => Raise RuntimeError;
     upper := map_string upper_char |}.

(** The offline world, but every page has the anchors [links]. *)
Definition with_page (links : list Anchor) : World :=
  {| now_hms := "12:00:00"; now_hm := "12:00";
     urlparse := py_urlparse;
     get_json := fun _ => Raise RequestException;
     get_anchors := fun _ => Return links;
     get_paragraphs := fun _ => Raise RequestException;
     summarizer := fun _ => Raise RuntimeError;
     upper := map_string upper_char |}.

(** The offline world, but the API answers [data]. *)
Definition with_api (data : json) : World :=
  {| now_hms := "12:00:00"; now_hm := "12:00";
     urlparse := py_urlparse;
     get_json := fun _ => Return data;
     get_anchors := fun _ => Raise RequestException;
     get_paragraphs := fun _ => Raise RequestException;
     summarizer := fun _ => Raise RuntimeError;
     upper := map_string upper_char |}.

(** The offline world, but every article has the paragraphs [ps] and
    the model answers [answer]. *)
Definition with_article (ps : list string) (answer : outcome string) : World :=
  {| now_hms := "12:00:00"; now_hm := "12:00";
     urlparse := py_urlparse;
     get_json := fun _ => Raise RequestException;
     get_anchors := fun _ => Raise RequestException;
     get_paragraphs := fun _ => Return ps;
     summarizer := fun _ => answer;
     upper := map_string upper_char |}.

(** A world in which every section page shows two headlines, the API
    is down, every article has two long paragraphs and the model
    answers. *)
Definition newsroom : World :=
  {| now_hms := "12:00:00"; now_hm := "12:00";
     urlparse := py_urlparse;
     get_json := fun _ => Raise RequestException;
     get_anchors := fun _ =>
       Return [{| text := "Parliament passes the budget after a long night";
                  href := "/budget" |};
               {| text := "Home"; href := "/" |};
               {| text := " Floods close the northern roads for a third day ";
                  href := "https://news.example/floods" |}];
     get_paragraphs := fun _ => Return [chars 120 "a"; chars 120 "b"];
     summarizer := fun _ => Return "Summary.";
     upper := map_string upper_char |}.

Example urlparse_section :
  py_urlparse "https://www.prothomalo.com/politics"
  = Return {| scheme := "https"; netloc := "www.prothomalo.com";
              path := "/politics" |}.
Proof. reflexivity. Qed.

Example urlparse_bracket : py_urlparse "http://[prothomalo" = Raise ValueError.
Proof. reflexivity. Qed.

(** A cycle during which the registry is rewritten: the only outlet is
    deleted and another one is added while the worker is in its loops. *)
Definition edits_in_flight : list Event :=
  [DeletePaper "Prothom Alo";
   AddPaper "Al Jazeera" "international" EmptyString EmptyString EmptyString
            "https://news.example/world"]
  ++ repeat (Worker newsroom false) 15.

(** The state after [evs], or [s] itself when [evs] cannot happen. *)
Definition state_after (evs : list Event) (s : State) : State :=
  match run evs s with
  | Some s' => s'
  | None => s
  end.

(** Texts at the boundary of the headline test. *)
Definition sample_35 : string := "aaaaaaa bbbbbbb ccccccc ddddd eeeee".
Definition sample_36_4 : string := "aaaaaaaa bbbbbbbb cccccccc ddddd eee".
Definition sample_36_3 : string := "aaaaaaaa bbbbbbbb cccccccc ddddddddd".

Definition four_words : string := "aaaaaaaaaa bbbbbbbbbb cccccccccc ddddddd".

(** A page with a headline linked twice, and an API answer in which a
    story comes twice. *)
Definition page_twice : list Anchor :=
  [{| text := sample_36_4; href := "/a" |};
   {| text := "  " +++ sample_36_4 +++ " (again)"; href := "/a" |};
   {| text := "Home"; href := "/" |}].

Definition story (headline slug : string) : json :=
  JObj [("story", JObj [("headline", JStr headline); ("slug", JStr slug)])].

Definition api_twice : json :=
  JObj [("items", JArr [story "Budget passed" "business/budget-passed";
                        story "Budget passed" "business/budget-passed"])].

(** One cycle run to its end, the wait ended by its timeout, the
    trigger cleared: the worker is at the top of its second cycle. *)
Definition first_cycle : list Event :=
  repeat (Worker newsroom false) 19
  ++ [Worker newsroom true; Worker newsroom false].

(** The RUNNING phase of the second cycle, with a reader in it. *)
Definition second_cycle : list Event :=
  Worker newsroom false :: FetchNews ["Prothom Alo"] ["Politics"]
  :: repeat (Worker newsroom false) 16.

(** Three calls in one window: two while the cycle runs, one while the
    worker waits. *)
Definition three_calls : list Event :=
  ForceSync newsroom :: repeat (Worker newsroom false) 5
  ++ ForceSync newsroom :: repeat (Worker newsroom false) 14
  ++ [ForceSync newsroom].

End Lab.

(** ** Phases and invariants of the process *)

Definition is_force (ev : Event) : bool :=
  match ev with ForceSync _ => true | _ => false end.

(** The calls of [force_sync] in an interleaving. *)
Definition count_force (evs : list Event) : nat :=
  length (filter is_force evs).

Definition is_worker (ev : Event) : bool :=
  match ev with Worker _ _ => true | _ => false end.

(** The RUNNING phase of the worker: from the top of the loop to the
    assignment of line 150, not yet done. *)
Definition running (s : State) : Prop :=
  match pc s with
  | AtTop | AtCopy | InOutlets _ | InSections _ _ _ _ | InItems _ _ _ _ _ _
  | AtPublish => True
  | AtLog | AtWait | AtClear | Crashed => False
  end.

(** The part of it in which [temp_cache] is bound to the buffer of the
    cycle. *)
Definition building (p : Pc) : Prop :=
  match p with
  | AtCopy | InOutlets _ | InSections _ _ _ _ | InItems _ _ _ _ _ _
  | AtPublish => True
  | _ => False
  end.

(** Both names are bound to objects that exist, and the buffer being
    built is not the object that is published. *)
Definition separate (s : State) : Prop :=
  INTEL_CACHE s < length (heap s) /\
  temp_cache s < length (heap s) /\
  (building (pc s) -> temp_cache s <> INTEL_CACHE s).

(** The outlet names the worker still has to visit, and the one it is
    visiting. *)
Definition pending_names (p : Pc) : list string :=
  match p with
  | InOutlets todo => map fst todo
  | InSections name _ _ todo => name :: map fst todo
  | InItems name _ _ _ _ todo => name :: map fst todo
  | _ => []
  end.

(** The buffer and the rest of the loop only name outlets of [R]. *)
Definition within (R : Registry) (s : State) : Prop :=
  Forall (fun n => In (source n) (map fst R)) (buffer s) /\
  incl (pending_names (pc s)) (map fst R).

(** The buffer is empty when the worker is about to copy the registry. *)
Definition fresh_at_copy (s : State) : Prop :=
  pc s = AtCopy -> buffer s = [].

(** ** The discovery rule in the words of the specification *)

Module Spec.

(** The space-separated words of a text: the non-empty pieces between
    its spaces. *)
Definition words (t : string) : list string :=
  filter (fun piece => negb (String.eqb piece EmptyString)) (PyStr.split_space t).

(** The rule as the specification words it: more than 35 characters
    and at least 4 space-separated words. *)
Definition is_sentence (t : string) : bool :=
  (35 <? String.length t) && (4 <=? length (words t)).

(** The link of an anchor, resolved against the origin [p] of the page. *)
Definition resolve_with (p : ParseResult) (href : string) : string :=
  if negb (PyStr.startswith "http" href)
  then scheme p +++ "://" +++ netloc p
       +++ (if PyStr.startswith "/" href then href else "/" +++ href)
  else href.

(** Deduplication by link, the first occurrence winning; [seen] holds
    the links already taken. *)
Fixpoint dedup (seen : list string) (cs : list Candidate) : list Candidate :=
  match cs with
  | [] => []
  | c :: rest =>
      if str_in (link c) seen then dedup seen rest
      else c :: dedup (seen ++ [link c]) rest
  end.

(** The candidate an anchor stands for. *)
Definition candidate (p : ParseResult) (a : Anchor) : Candidate :=
  {| title := JStr (PyStr.strip (text a)); link := resolve_with p (href a) |}.

(** The structured path: one candidate for each item of the API that
    has a headline, in the order of the API. *)
Definition api_candidates (items : list json) : list Candidate :=
  flat_map (fun item => match api_item item [] with
                        | Return l => l
                        | Raise _ => []
                        end) items.

(** The generic path: the anchors that pass the headline test, as
    candidates, deduplicated, the first six. *)
Definition discover (p : ParseResult) (links : list Anchor) : list Candidate :=
  firstn 6
    (dedup [] (map (candidate p)
                   (filter (fun a => is_headline (PyStr.strip (text a))) links))).

End Spec.

(** ** The other entry points of the process *)

(** The handlers and the job that only write to the log, as far as the
    state of the process goes: [update_archive_timer] (lines 199-203),
    [generate_intel] (line 207) and [auto_archive] (lines 161-162). *)
Inductive Request : Type :=
  | UpdateArchiveTimer (w : World) (minutes : Z)
  | GenerateIntel (w : World)
  | AutoArchive (w : World).

(** Lines 199-203, the rescheduling of the job apart. *)
Definition update_archive_timer (w : World) (minutes : Z) (s : State) : State :=
  log w ("SYSTEM: ARCHIVE INTERVAL SET TO " +++ PyStr.of_Z minutes +++ " MINS.") s.

(** Line 207 *)
Definition generate_intel_log (w : World) (s : State) : State :=
  log w "DOSSIER: COMPILING STRUCTURED DOCX..." s.

(** Lines 161-162: nothing happens while the cache is empty. *)
Definition auto_archive_log (w : World) (s : State) : State :=
  match current_snapshot s with
  | [] => s
  | _ :: _ => log w "ARCHIVER: AUTO-GENERATING PERIODIC DOSSIER..." s
  end.

Definition serve (r : Request) (s : State) : State :=
  match r with
  | UpdateArchiveTimer w minutes => update_archive_timer w minutes s
  | GenerateIntel w => generate_intel_log w s
  | AutoArchive w => auto_archive_log w s
  end.

(** Everything that happens in the process: the events of [exec] and
    the requests above. *)
Inductive Action : Type :=
  | Core (ev : Event)
  | Other (r : Request).

Definition act (a : Action) (s : State) : option State :=
  match a with
  | Core ev => exec ev s
  | Other r => Some (serve r s)
  end.

Fixpoint play (acts : list Action) (s : State) : option State :=
  match acts with
  | [] => Some s
  | a :: rest =>
      match act a s with
      | None => None
      | Some s' => play rest s'
      end
  end.

(** [d.get(name)] on the registry. *)
Fixpoint dict_get (name : string) (d : Registry) : option Outlet :=
  match d with
  | [] => None
  | (k, v) :: rest => if String.eqb k name then Some v else dict_get name rest
  end.

(** The entry [add_paper] stores (lines 236-239). *)
Definition new_entry (type pol eco nat intl_url : string) : Outlet :=
  if String.eqb type "national" then
    {| otype := "national";
       paths := [("Politics", pol); ("Economy", eco); ("National", nat)] |}
  else
    {| otype := "international"; paths := [("International", intl_url)] |}.

(** [AiLoaded] is the only event that raises [is_model_ready]. *)
Definition is_loaded (a : Action) : bool :=
  match a with Core (AiLoaded _) => true | _ => false end.

(** Every list object holds only items with the "initializing" sentinel. *)
Definition all_initializing (s : State) : Prop :=
  Forall (Forall (fun n => summary n = MSG_INITIALIZING)) (heap s).

(** The sections of a registry, and an upper bound of the steps the
    worker still takes before the assignment of line 150. *)
Definition sections_of (R : Registry) : nat :=
  list_sum (map (fun e => length (paths (snd e))) R).

Definition steps_left (p : Pc) : nat :=
  match p with
  | AtTop => 0
  | AtCopy => 0
  | InOutlets todo => 1 + 2 * length todo + 5 * sections_of todo
  | InSections _ _ todo_sections todo =>
      2 + 5 * length todo_sections + 2 * length todo + 5 * sections_of todo
  | InItems _ _ _ todo_items todo_sections todo =>
      3 + length todo_items + 5 * length todo_sections
      + 2 * length todo + 5 * sections_of todo
  | _ => 0
  end.

(** The worker is inside the loops of lines 136-148. *)
Definition in_loops (p : Pc) : Prop :=
  match p with
  | InOutlets _ | InSections _ _ _ _ | InItems _ _ _ _ _ _ => True
  | _ => False
  end.

(** The steps of the worker in an interleaving. *)
Definition count_worker (evs : list Event) : nat :=
  length (filter is_worker evs).

(** The items the worker can still add to its buffer in this cycle. *)
Definition room_left (p : Pc) : nat :=
  match p with
  | InOutlets todo => 3 * sections_of todo
  | InSections _ _ todo_sections todo =>
      3 * length todo_sections + 3 * sections_of todo
  | InItems _ _ _ todo_items todo_sections todo =>
      length todo_items + 3 * length todo_sections + 3 * sections_of todo
  | _ => 0
  end.

(** An item made for the section [sector] of the entry [(name, cfg)]. *)
Definition item_of_entry (name : string) (cfg : Outlet) (n : IntelItem) : Prop :=
  source n = name /\ item_type n = otype cfg /\
  In (sector n) (map fst (paths cfg)).

(** The entries the worker is visiting or still has to visit. *)
Definition pending_entries (p : Pc) : Registry :=
  match p with
  | InOutlets todo => todo
  | InSections name cfg _ todo => (name, cfg) :: todo
  | InItems name cfg _ _ _ todo => (name, cfg) :: todo
  | _ => []
  end.

(** The sections of the outlet being visited that are still to come,
    and the one being visited. *)
Definition pending_sections (p : Pc) : list string :=
  match p with
  | InSections _ _ todo_sections _ => map fst todo_sections
  | InItems _ _ sector _ todo_sections _ => sector :: map fst todo_sections
  | _ => []
  end.

(** The outlet the worker is visiting, if it is visiting one. *)
Definition current_sections (p : Pc) : list string :=
  match p with
  | InSections _ cfg _ _ => map fst (paths cfg)
  | InItems _ cfg _ _ _ _ => map fst (paths cfg)
  | _ => []
  end.

(** An item of the buffer comes from an entry of [R]. *)
Definition from_registry (R : Registry) (n : IntelItem) : Prop :=
  exists cfg, In (source n, cfg) R /\ item_type n = otype cfg /\
              In (sector n) (map fst (paths cfg)).

(** What the worker keeps true from the copy of the registry [R] to
    the assignment of line 150: the buffer holds items of entries of
    [R], with room for three per section still to visit, and the loops
    run over entries of [R] and sections of the entry being visited. *)
Definition cycle_inv (R : Registry) (s : State) : Prop :=
  Forall (from_registry R) (buffer s) /\
  length (buffer s) + room_left (pc s) <= 3 * sections_of R /\
  incl (pending_entries (pc s)) R /\
  incl (pending_sections (pc s)) (current_sections (pc s)) /\
  match pc s with
  | InItems _ _ _ todo_items _ _ => length todo_items <= 3
  | _ => True
  end.

(** ** The dossier of [generate_intel] *)

(** What is put into the document, call by call: [add_heading] with its
    text and level (and whether it is centred), [add_paragraph] with its
    text and style, and a paragraph made of one bold run. *)
Inductive Block : Type :=
  | Heading (text : json) (level : nat) (centered : bool)
  | Paragraph (text : string) (style : option string)
  | BoldRun (text : string).

(** Line 214 and line 225: the tests of the two loops. *)
Definition in_section_one (sources : list string) (n : IntelItem) : bool :=
  str_in (source n) sources && String.eqb (item_type n) "international".

Definition in_sector (sources : list string) (sec : string) (n : IntelItem) : bool :=
  str_in (source n) sources && String.eqb (sector n) sec.

(** Lines 213-217 *)
Definition section_one (sources : list string) (cache : list IntelItem)
  : list Block :=
  flat_map (fun n =>
              if in_section_one sources n then
                [Heading (item_title n) 3 false;
                 Paragraph ("SOURCE: " +++ source n +++ " | LINK: " +++ item_link n)
                           (Some "Caption");
                 Paragraph (summary n) None]
              else []) cache.

(** Lines 222-228, for one [sec] of the list of line 221. *)
Definition sector_part (w : World) (sources sectors : list string) (sec : string)
    (cache : list IntelItem) : list Block :=
  if str_in sec sectors then
    Heading (JStr ("SECTOR: " +++ upper w sec)) 2 false
    :: flat_map (fun n =>
                   if in_sector sources sec n then
                     [BoldRun ("[" +++ source n +++ "] " +++ Py.str (item_title n));
                      Paragraph (summary n) None]
                   else []) cache
  else [].

Definition SECTOR_ORDER : list string := ["Politics"; "National"; "Economy"].

(** Lines 208-228: the document.  [INTEL_CACHE] is read when each loop
    over it starts: [cache_one] for section I and [cache_two sec] for
    the loop of [sec]. *)
Definition generate_intel_doc (w : World) (sources sectors : list string)
    (cache_one : list IntelItem) (cache_two : string -> list IntelItem)
  : list Block :=
  [Heading (JStr "TOP SECRET // INTELLIGENCE BRIEFING") 0 true;
   Heading (JStr "SECTION I: INTERNATIONAL INTELLIGENCE") 1 false]
  ++ section_one sources cache_one
  ++ [Heading (JStr "SECTION II: NATIONAL INTELLIGENCE") 1 false]
  ++ flat_map (fun sec => sector_part w sources sectors sec (cache_two sec))
              SECTOR_ORDER.

(** The headings of the sectors are the only ones of level 2. *)
Definition is_sector_heading (b : Block) : bool :=
  match b with
  | Heading _ 2 _ => true
  | _ => false
  end.





(** A candidate as the API block makes them. *)
Definition api_shaped (c : Candidate) : Prop :=
  Py.truthy (title c) = true /\
  PyStr.startswith "https://www.prothomalo.com/" (link c) = true.

(** An API answer whose second item has no story. *)
Definition api_broken : json :=
  JObj [("items", JArr [Lab.story "Budget passed" "business/budget-passed";
                        JObj [("story", JNull)]])].

(** ** Executions to run the further properties on *)

Module Demo.

(** The state after [acts], or [s] itself when [acts] cannot happen. *)
Definition after (acts : list Action) (s : State) : State :=
  match play acts s with
  | Some s' => s'
  | None => s
  end.

(** Three cycles of the worker, each wait ended by its timeout. *)
Definition three_cycles : list Action :=
  map Core (Lab.first_cycle ++ Lab.first_cycle ++ Lab.first_cycle).

(** [load_ai] fails, then the worker runs a cycle. *)
Definition failed_load : list Action :=
  Core (AiFailed Lab.newsroom "out of memory") :: map Core Lab.first_cycle.

(** An outlet is added whose first section has a URL that [urlparse]
    refuses, the initial outlet is deleted, and the worker reaches the
    sections of the new outlet. *)
Definition bad_outlet : list Event :=
  [AddPaper "Mirror" "national" "http://[prothomalo" EmptyString EmptyString
            EmptyString;
   DeletePaper "Prothom Alo";
   Worker Lab.offline false; Worker Lab.offline false; Worker Lab.offline false].

End Demo.

(** * Properties *)

(** Case analysis of one step of the worker. *)
Ltac worker_cases s H :=
  unfold worker_step in H;
  destruct (pc s) as [| |[|[? ?] ?]|? ? [|[? ?] ?] ?|? ? ? [|? ?] ? ?| | | | |] eqn:?;
  repeat match type of H with
         | context [match ?x with _ => _ end] => destruct x eqn:?
         | context [if ?x then _ else _] => destruct x eqn:?
         end;
  try discriminate H;
  injection H as <-.

Ltac exec_cases ev s H :=
  destruct ev; cbn [exec] in H;
  [ worker_cases s H | injection H as <- .. ].

Ltac state_simpl :=
  cbn [heap TARGET_GRID INTEL_CACHE SYSTEM_LOGS SYNC_INTERVAL_MINS
       trigger_sync_now is_model_ready pc temp_cache current_targets
       set_heap set_pc set_temp set_logs set_cache set_trigger set_targets
       set_grid set_interval set_ready log update_sync_timer force_sync
       delete_paper ai_loaded ai_failed] in *.

(** ** The query filter *)

Section Query.

Lemma str_in_In (x : string) (xs : list string) :
  str_in x xs = true <-> In x xs.
Proof.
  unfold str_in. rewrite existsb_exists. split.
  - intros [y [Hy Heq]]. apply String.eqb_eq in Heq. now subst.
  - intros H. exists x. split; [assumption | apply String.eqb_refl].
Qed.

Lemma fetch_news_filter_In (cache : list IntelItem) (srcs secs : list string)
    (n : IntelItem) :
  In n (fetch_news_filter cache srcs secs) <->
  In n cache /\ In (source n) srcs /\
  (In (sector n) secs \/ item_type n = "international").
Proof.
  unfold fetch_news_filter.
  rewrite filter_In, andb_true_iff, orb_true_iff, !str_in_In, String.eqb_eq.
  tauto.
Qed.

(** C10: [fetch_news] returns a cached item exactly when its source is
    among the selected sources and either its sector is among the
    selected sectors or its type is ['international']; so an
    international item of a selected source is returned whatever the
    sectors, and no item of an unselected source is returned. *)
Theorem fetch_news_selects (s : State) (selected_sources selected_sectors : list string)
    (n : IntelItem) :
  (In n (news (fetch_news s selected_sources selected_sectors)) <->
   In n (current_snapshot s) /\
   In (source n) selected_sources /\
   (In (sector n) selected_sectors \/ item_type n = "international")) /\
  (In n (current_snapshot s) /\ In (source n) selected_sources /\
   item_type n = "international" ->
   In n (news (fetch_news s selected_sources selected_sectors))) /\
  (~ In (source n) selected_sources ->
   ~ In n (news (fetch_news s selected_sources selected_sectors))).
Proof.
  unfold fetch_news. cbn [news].
  pose proof (fetch_news_filter_In (current_snapshot s) selected_sources
                selected_sectors n) as H.
  repeat split; try tauto.
Qed.

(** The answer keeps the order of the cache. *)
Lemma fetch_news_order (s : State) (srcs secs : list string) :
  exists keep, news (fetch_news s srcs secs) = filter keep (current_snapshot s).
Proof. eexists. reflexivity. Qed.

End Query.


(** ** Discovery *)

Section Discovery.

Variable w : World.
Variable url : string.

Lemma is_headline_iff (t : string) :
  is_headline t = true <-> 35 < String.length t /\ 4 <= PyStr.count " " t.
Proof.
  unfold is_headline. now rewrite andb_true_iff, Nat.ltb_lt, Nat.leb_le.
Qed.

Lemma has_link_str_in (h : string) (l : list Candidate) :
  has_link h l = str_in h (map link l).
Proof.
  unfold has_link, str_in. induction l as [|c l IH]; cbn; [reflexivity|].
  now rewrite IH, String.eqb_sym.
Qed.

Lemma has_link_In (h : string) (l : list Candidate) :
  has_link h l = false <-> ~ In h (map link l).
Proof.
  rewrite has_link_str_in, <- str_in_In. now destruct (str_in h (map link l)).
Qed.

(** What the body of the loop can do to [news]. *)
Lemma scan_link_cases (a : Anchor) (l l' : list Candidate) :
  scan_link w url a l = Return l' ->
  l' = l \/
  exists h, is_headline (PyStr.strip (text a)) = true /\
            resolve w url (href a) = Return h /\
            has_link h l = false /\
            l' = l ++ [{| title := JStr (PyStr.strip (text a)); link := h |}].
Proof.
  unfold scan_link. destruct (is_headline _) eqn:Hh.
  - destruct (resolve w url (href a)) as [h|e] eqn:Hr; cbn; [|discriminate].
    destruct (has_link h l) eqn:Hl; cbn; intros [= <-]; [now left|].
    right. now exists h.
  - intros [= <-]. now left.
Qed.

Lemma scan_link_length (a : Anchor) (l l' : list Candidate) :
  scan_link w url a l = Return l' -> length l' <= S (length l).
Proof.
  intros H. destruct (scan_link_cases _ _ _ H) as [->|[h [_ [_ [_ ->]]]]].
  - lia.
  - rewrite length_app. cbn. lia.
Qed.

Lemma scan_link_NoDup (a : Anchor) (l l' : list Candidate) :
  scan_link w url a l = Return l' ->
  NoDup (map link l) -> NoDup (map link l').
Proof.
  intros H Hnd. destruct (scan_link_cases _ _ _ H) as [->|[h [_ [_ [Hl ->]]]]].
  - assumption.
  - rewrite map_app. cbn. apply has_link_In in Hl.
    apply NoDup_app; [assumption | repeat constructor; intros [] | ].
    intros x Hx [<-|[]]. contradiction.
Qed.

(** The loop never holds more than six candidates, when it starts below six. *)
Lemma scan_links_length (links : list Anchor) (l : list Candidate) :
  length l < 6 -> length (fst (scan_links w url links l)) <= 6.
Proof.
  revert l. induction links as [|a rest IH]; intros l Hl; cbn [scan_links fst];
    [lia|].
  destruct (scan_link w url a l) as [l'|e] eqn:Hs; cbn [fst]; [|lia].
  pose proof (scan_link_length _ _ _ Hs).
  destruct (6 <=? length l') eqn:H6; cbn [fst].
  - apply Nat.leb_le in H6. lia.
  - apply IH. now apply Nat.leb_gt in H6.
Qed.

(** The loop keeps the links pairwise distinct. *)
Lemma scan_links_NoDup (links : list Anchor) (l : list Candidate) :
  NoDup (map link l) -> NoDup (map link (fst (scan_links w url links l))).
Proof.
  revert l. induction links as [|a rest IH]; intros l Hl; cbn [scan_links fst];
    [assumption|].
  destruct (scan_link w url a l) as [l'|e] eqn:Hs; cbn [fst]; [|assumption].
  pose proof (scan_link_NoDup _ _ _ Hs Hl).
  destruct (6 <=? length l'); cbn [fst]; [assumption | now apply IH].
Qed.

(** What the loop held when it started is still there when it ends. *)
Lemma scan_links_keeps (links : list Anchor) (l : list Candidate) (c : Candidate) :
  In c l -> In c (fst (scan_links w url links l)).
Proof.
  revert l. induction links as [|a rest IH]; intros l Hc; cbn [scan_links fst];
    [assumption|].
  destruct (scan_link w url a l) as [l'|e] eqn:Hs; cbn [fst]; [|assumption].
  assert (In c l') as Hc'.
  { destruct (scan_link_cases _ _ _ Hs) as [->|[h [_ [_ [_ ->]]]]];
      [assumption | apply in_or_app; now left]. }
  destruct (6 <=? length l'); cbn [fst]; [assumption | now apply IH].
Qed.

(** Every candidate the loop adds is an anchor that passed the test. *)
Lemma scan_links_sound (links : list Anchor) (l : list Candidate) (c : Candidate) :
  In c (fst (scan_links w url links l)) ->
  In c l \/
  exists a, In a links /\
            is_headline (PyStr.strip (text a)) = true /\
            title c = JStr (PyStr.strip (text a)) /\
            resolve w url (href a) = Return (link c).
Proof.
  revert l. induction links as [|a rest IH]; intros l; cbn [scan_links fst];
    [now left|].
  destruct (scan_link w url a l) as [l'|e] eqn:Hs; cbn [fst]; [|now left].
  assert (forall c, In c l' ->
            In c l \/ (is_headline (PyStr.strip (text a)) = true /\
                       title c = JStr (PyStr.strip (text a)) /\
                       resolve w url (href a) = Return (link c))) as Hstep.
  { intros c0 Hc0.
    destruct (scan_link_cases _ _ _ Hs) as [->|[h [Hh [Hr [_ ->]]]]];
      [now left|].
    apply in_app_or in Hc0. destruct Hc0 as [Hc0|[<-|[]]]; [now left|].
    right. cbn. auto. }
  assert (In c l' ->
          In c l \/
          exists a0, In a0 (a :: rest) /\
            is_headline (PyStr.strip (text a0)) = true /\
            title c = JStr (PyStr.strip (text a0)) /\
            resolve w url (href a0) = Return (link c)) as Hhere.
  { intros Hc. destruct (Hstep c Hc) as [?|?]; [now left|].
    right. exists a. split; [now left | assumption]. }
  destruct (6 <=? length l'); cbn [fst]; [exact Hhere|].
  intros Hc. destruct (IH l' Hc) as [Hc'|[a0 [Hin Ha0]]].
  - now apply Hhere.
  - right. exists a0. split; [now right | assumption].
Qed.

(** When the loop ends without an exception and below six candidates,
    every anchor that passed the test has its link among them. *)
Lemma scan_links_complete (links : list Anchor) (l : list Candidate) (a : Anchor) :
  snd (scan_links w url links l) = None ->
  In a links ->
  is_headline (PyStr.strip (text a)) = true ->
  6 <= length (fst (scan_links w url links l)) \/
  exists h, resolve w url (href a) = Return h /\
            In h (map link (fst (scan_links w url links l))).
Proof.
  revert l. induction links as [|a0 rest IH]; intros l; cbn [scan_links fst snd];
    [intros _ []|].
  destruct (scan_link w url a0 l) as [l'|e] eqn:Hs; cbn [fst snd];
    [|discriminate].
  destruct (6 <=? length l') eqn:H6; cbn [fst snd].
  - intros _ _ _. left. now apply Nat.leb_le.
  - intros Hnone [<-|Hin] Hh.
    + right. unfold scan_link in Hs. rewrite Hh in Hs.
      destruct (resolve w url (href a0)) as [h|e] eqn:Hr; cbn in Hs;
        [|discriminate].
      exists h. split; [reflexivity|].
      apply in_map_iff.
      destruct (has_link h l) eqn:Hl; cbn in Hs; injection Hs as <-.
      * unfold has_link in Hl. apply existsb_exists in Hl.
        destruct Hl as [c [Hc Heq]]. apply String.eqb_eq in Heq.
        exists c. split; [assumption | now apply scan_links_keeps].
      * eexists. split; [|apply scan_links_keeps, in_or_app; right; now left].
        reflexivity.
    + now apply IH.
Qed.

Lemma resolve_with_ok (p : ParseResult) (h : string) :
  urlparse w url = Return p -> resolve w url h = Return (Spec.resolve_with p h).
Proof.
  intros Hp. unfold resolve, Spec.resolve_with.
  destruct (negb (PyStr.startswith "http" h)); [|reflexivity].
  now rewrite Hp.
Qed.

(** The loop computes the pipeline of the specification. *)
Lemma scan_links_refines (p : ParseResult) (links : list Anchor) (l : list Candidate) :
  urlparse w url = Return p ->
  length l < 6 ->
  scan_links w url links l
  = (l ++ firstn (6 - length l)
            (Spec.dedup (map link l)
               (map (Spec.candidate p)
                    (filter (fun a => is_headline (PyStr.strip (text a))) links))),
     None).
Proof.
  intros Hp. revert l.
  induction links as [|a rest IH]; intros l Hl; cbn [scan_links filter map].
  - cbn. now rewrite firstn_nil, app_nil_r.
  - unfold scan_link.
    destruct (is_headline (PyStr.strip (text a))) eqn:Hh.
    + rewrite (resolve_with_ok p _ Hp). cbn [bind map Spec.dedup].
      change (link (Spec.candidate p a)) with (Spec.resolve_with p (href a)).
      rewrite has_link_str_in.
      destruct (str_in (Spec.resolve_with p (href a)) (map link l)) eqn:Hs;
        cbn [negb].
      * apply Nat.ltb_lt in Hl as Hl'.
        replace (6 <=? length l) with false
          by (symmetry; apply Nat.leb_gt; assumption).
        now apply IH.
      * rewrite length_app. cbn [length].
        destruct (6 <=? length l + 1) eqn:H6.
        -- apply Nat.leb_le in H6.
           replace (6 - length l) with 1 by lia. reflexivity.
        -- apply Nat.leb_gt in H6.
           rewrite IH by (rewrite length_app; cbn; lia).
           rewrite length_app, map_app. cbn [length map].
           replace (6 - length l) with (S (6 - (length l + 1))) by lia.
           cbn [firstn]. rewrite <- app_assoc. reflexivity.
    + replace (6 <=? length l) with false
        by (symmetry; apply Nat.leb_gt; assumption).
      now apply IH.
Qed.

End Discovery.

Section DiscoveryCall.

Variable w : World.
Variables url source_name : string.
Variable SYSTEM_LOGS0 : list string.

Lemma eqb_empty_false : url <> EmptyString -> String.eqb url EmptyString = false.
Proof. intros H. now apply String.eqb_neq. Qed.

(** The scan ends without an exception when every anchor resolves. *)
Lemma scan_links_no_raise (links : list Anchor) (l : list Candidate) :
  (forall a, In a links -> exists h, resolve w url (href a) = Return h) ->
  snd (scan_links w url links l) = None.
Proof.
  revert l. induction links as [|a rest IH]; intros l Hres; cbn [scan_links snd];
    [reflexivity|].
  destruct (scan_link w url a l) as [l'|e] eqn:Hs.
  - destruct (6 <=? length l'); cbn [snd]; [reflexivity|].
    apply IH. intros a0 Ha0. apply Hres. now right.
  - exfalso. unfold scan_link in Hs.
    destruct (Hres a (or_introl eq_refl)) as [h Hh]. rewrite Hh in Hs.
    cbn in Hs. destruct (is_headline _); [destruct (negb _)|]; discriminate.
Qed.

(** The list the heuristic mode returns, whatever the page fetch does. *)
Lemma heuristic_mode_fst (l : list Candidate) :
  fst (heuristic_mode w url source_name l SYSTEM_LOGS0)
  = match get_anchors w url with
    | Raise _ => l
    | Return links => fst (scan_links w url links l)
    end.
Proof.
  unfold heuristic_mode. destruct (get_anchors w url) as [links|e]; [|reflexivity].
  destruct (scan_links w url links l) as [l' [e|]]; reflexivity.
Qed.

(** A URL that is not of the API outlet goes to the heuristic mode
    with no candidate yet. *)
Lemma intercept_generic :
  url <> EmptyString -> PyStr.contains "prothomalo" url = false ->
  fst (universal_intercept w url source_name SYSTEM_LOGS0)
  = Return (fst (heuristic_mode w url source_name [] SYSTEM_LOGS0)).
Proof.
  intros Hne Hp. unfold universal_intercept.
  rewrite (eqb_empty_false Hne), Hp.
  now destruct (heuristic_mode w url source_name [] SYSTEM_LOGS0).
Qed.

(** So does a URL of the API outlet when the API block leaves nothing. *)
Lemma intercept_api_empty (p : ParseResult) :
  url <> EmptyString -> PyStr.contains "prothomalo" url = true ->
  urlparse w url = Return p ->
  fst (api_mode w (slug_of url p)) = [] ->
  fst (universal_intercept w url source_name SYSTEM_LOGS0)
  = Return (fst (heuristic_mode w url source_name [] SYSTEM_LOGS0)).
Proof.
  intros Hne Hc Hp Hapi. unfold universal_intercept.
  rewrite (eqb_empty_false Hne), Hc, Hp.
  destruct (api_mode w (slug_of url p)) as [l o]. cbn in Hapi. subst l.
  now destruct (heuristic_mode w url source_name [] SYSTEM_LOGS0).
Qed.

Lemma intercept_generic_path :
  url <> EmptyString -> generic_path w url ->
  fst (universal_intercept w url source_name SYSTEM_LOGS0)
  = Return (fst (heuristic_mode w url source_name [] SYSTEM_LOGS0)).
Proof.
  intros Hne [Hc|[p [Hp Hapi]]].
  - now apply intercept_generic.
  - destruct (PyStr.contains "prothomalo" url) eqn:Hc.
    + now apply (intercept_api_empty p).
    + now apply intercept_generic.
Qed.

(** The API block that ends without an exception and with a candidate
    is the answer. *)
Lemma intercept_api_success (p : ParseResult) (x : Candidate) (l : list Candidate) :
  url <> EmptyString -> PyStr.contains "prothomalo" url = true ->
  urlparse w url = Return p ->
  api_mode w (slug_of url p) = (x :: l, None) ->
  universal_intercept w url source_name SYSTEM_LOGS0 = (Return (x :: l), SYSTEM_LOGS0).
Proof.
  intros Hne Hc Hp Hapi. unfold universal_intercept.
  now rewrite (eqb_empty_false Hne), Hc, Hp, Hapi.
Qed.

(** The heuristic mode entered with nothing: the answer in one formula. *)
Lemma heuristic_from_empty_bounds :
  let r := fst (heuristic_mode w url source_name [] SYSTEM_LOGS0) in
  length r <= 6 /\ NoDup (map link r).
Proof.
  cbn zeta. rewrite heuristic_mode_fst.
  destruct (get_anchors w url) as [links|e].
  - split; [apply scan_links_length; cbn; lia
           | apply scan_links_NoDup; constructor].
  - split; [cbn; lia | constructor].
Qed.

Lemma heuristic_from_empty_refines (p : ParseResult) (links : list Anchor) :
  get_anchors w url = Return links -> urlparse w url = Return p ->
  fst (heuristic_mode w url source_name [] SYSTEM_LOGS0) = Spec.discover p links.
Proof.
  intros Hg Hp. rewrite heuristic_mode_fst, Hg.
  rewrite (scan_links_refines w url p links [] Hp) by (cbn; lia).
  reflexivity.
Qed.

End DiscoveryCall.

(** *** The headline rule *)

(** C4: in the generic path an anchor whose stripped text has exactly 35
    characters is rejected; one with 36 characters and 4 spaces is
    accepted, as a candidate with that text and the resolved link; one
    with 36 characters and 3 spaces is rejected. *)
Theorem headline_boundary (w : World) (url source_name : string)
    (SYSTEM_LOGS0 : list string) (a : Anchor) :
  url <> EmptyString ->
  generic_path w url ->
  get_anchors w url = Return [a] ->
  let t := PyStr.strip (text a) in
  let r := fst (universal_intercept w url source_name SYSTEM_LOGS0) in
  (String.length t = 35 -> r = Return []) /\
  (String.length t = 36 -> PyStr.count " " t = 4 ->
   forall h, resolve w url (href a) = Return h ->
             r = Return [{| title := JStr t; link := h |}]) /\
  (String.length t = 36 -> PyStr.count " " t = 3 -> r = Return []).
Proof.
  intros Hne Hp Hg t r. subst r.
  rewrite (intercept_generic_path w url source_name SYSTEM_LOGS0 Hne Hp).
  rewrite heuristic_mode_fst, Hg. cbn [scan_links]. unfold scan_link.
  fold t. unfold is_headline.
  repeat split.
  - intros ->. reflexivity.
  - intros -> -> h ->. reflexivity.
  - intros -> ->. reflexivity.
Qed.

Lemma headline_boundary_witness :
  fst (universal_intercept
         (Lab.with_page [{| text := Lab.sample_35; href := "https://news.example/a" |}])
         "https://news.example/world" "Example" [])
  = Return [] /\
  fst (universal_intercept
         (Lab.with_page [{| text := Lab.sample_36_4; href := "/a" |}])
         "https://news.example/world" "Example" [])
  = Return [{| title := JStr Lab.sample_36_4; link := "https://news.example/a" |}] /\
  fst (universal_intercept
         (Lab.with_page [{| text := Lab.sample_36_3; href := "/a" |}])
         "https://news.example/world" "Example" [])
  = Return [].
Proof.
  split; [|split].
  - refine (proj1 (headline_boundary
             (Lab.with_page [{| text := Lab.sample_35; href := "https://news.example/a" |}])
             "https://news.example/world" "Example" []
             {| text := Lab.sample_35; href := "https://news.example/a" |}
             _ (or_introl eq_refl) eq_refl) eq_refl).
    discriminate.
  - refine (proj1 (proj2 (headline_boundary
             (Lab.with_page [{| text := Lab.sample_36_4; href := "/a" |}])
             "https://news.example/world" "Example" []
             {| text := Lab.sample_36_4; href := "/a" |}
             _ (or_introl eq_refl) eq_refl)) eq_refl eq_refl _ eq_refl).
    discriminate.
  - refine (proj2 (proj2 (headline_boundary
             (Lab.with_page [{| text := Lab.sample_36_3; href := "/a" |}])
             "https://news.example/world" "Example" []
             {| text := Lab.sample_36_3; href := "/a" |}
             _ (or_introl eq_refl) eq_refl)) eq_refl eq_refl).
    discriminate.
Defined.

(** C3, as the code has it: in the generic path (a page fetched, no
    candidate carried over, every link resolved) the candidates are
    anchors whose stripped text has more than 35 characters and at
    least 4 space characters; and every such anchor has its resolved
    link among the candidates unless the six have been reached. *)
Theorem headline_rule (w : World) (url source_name : string)
    (SYSTEM_LOGS0 : list string) (links : list Anchor) (r : list Candidate) :
  url <> EmptyString ->
  generic_path w url ->
  get_anchors w url = Return links ->
  (forall a, In a links -> exists h, resolve w url (href a) = Return h) ->
  fst (universal_intercept w url source_name SYSTEM_LOGS0) = Return r ->
  (forall c, In c r ->
     exists a, In a links /\
       title c = JStr (PyStr.strip (text a)) /\
       resolve w url (href a) = Return (link c) /\
       35 < String.length (PyStr.strip (text a)) /\
       4 <= PyStr.count " " (PyStr.strip (text a))) /\
  (forall a, In a links ->
     35 < String.length (PyStr.strip (text a)) ->
     4 <= PyStr.count " " (PyStr.strip (text a)) ->
     6 <= length r \/
     exists h, resolve w url (href a) = Return h /\ In h (map link r)).
Proof.
  intros Hne Hp Hg Hres Hr.
  rewrite (intercept_generic_path w url source_name SYSTEM_LOGS0 Hne Hp) in Hr.
  rewrite heuristic_mode_fst, Hg in Hr. injection Hr as <-.
  split.
  - intros c Hc.
    destruct (scan_links_sound w url links [] c Hc) as [[]|[a [Hin [Hh [Ht Hl]]]]].
    exists a. apply is_headline_iff in Hh. tauto.
  - intros a Hin Hlen Hsp.
    apply scan_links_complete; [now apply scan_links_no_raise | assumption |].
    apply is_headline_iff. now split.
Qed.

Lemma headline_rule_witness :
  (forall c,
     In c [{| title := JStr Lab.sample_36_4; link := "https://news.example/a" |}] ->
     exists a, In a [{| text := Lab.sample_36_4; href := "/a" |};
                     {| text := Lab.four_words; href := "/b" |}] /\
       title c = JStr (PyStr.strip (text a)) /\
       resolve (Lab.with_page [{| text := Lab.sample_36_4; href := "/a" |};
                               {| text := Lab.four_words; href := "/b" |}])
               "https://news.example/world" (href a) = Return (link c) /\
       35 < String.length (PyStr.strip (text a)) /\
       4 <= PyStr.count " " (PyStr.strip (text a))) /\
  (forall a, In a [{| text := Lab.sample_36_4; href := "/a" |};
                   {| text := Lab.four_words; href := "/b" |}] ->
     35 < String.length (PyStr.strip (text a)) ->
     4 <= PyStr.count " " (PyStr.strip (text a)) ->
     6 <= length [{| title := JStr Lab.sample_36_4; link := "https://news.example/a" |}] \/
     exists h,
       resolve (Lab.with_page [{| text := Lab.sample_36_4; href := "/a" |};
                               {| text := Lab.four_words; href := "/b" |}])
               "https://news.example/world" (href a) = Return h /\
       In h (map link [{| title := JStr Lab.sample_36_4;
                          link := "https://news.example/a" |}])).
Proof.
  apply (headline_rule
           (Lab.with_page [{| text := Lab.sample_36_4; href := "/a" |};
                           {| text := Lab.four_words; href := "/b" |}])
           "https://news.example/world" "Example" []).
  - discriminate.
  - left. reflexivity.
  - reflexivity.
  - intros a [<-|[<-|[]]]; eexists; reflexivity.
  - reflexivity.
Defined.

(** C3 as the specification words it fails: a text of 40 characters
    made of four space-separated words (three spaces) is a sentence
    for the specification and is not taken by the scraper. *)
Lemma four_words_rejected :
  35 < String.length Lab.four_words /\
  4 <= length (Spec.words Lab.four_words) /\
  Spec.is_sentence Lab.four_words = true /\
  fst (universal_intercept
         (Lab.with_page [{| text := Lab.four_words; href := "https://news.example/b" |}])
         "https://news.example/world" "Example" [])
  = Return [].
Proof. repeat split; cbn; lia. Qed.

(** *** The cap and the deduplication *)

Lemma api_item_app (item : json) (l l' : list Candidate) :
  api_item item l = Return l' ->
  exists d, api_item item [] = Return d /\ l' = l ++ d.
Proof.
  unfold api_item.
  destruct (Py.get item "story" (JObj [])) as [story|e]; cbn; [|discriminate].
  destruct (Py.get story "headline" JNull) as [headline|e]; cbn; [|discriminate].
  destruct (Py.truthy headline).
  - destruct (Py.get story "slug" JNull) as [slug|e]; cbn; [|discriminate].
    intros [= <-]. eexists. split; reflexivity.
  - intros [= <-]. exists []. now rewrite app_nil_r.
Qed.

Lemma api_items_candidates (items : list json) (l r : list Candidate) :
  api_items items l = (r, None) -> r = l ++ Spec.api_candidates items.
Proof.
  revert l. induction items as [|item rest IH]; intros l; cbn.
  - intros [= <-]. now rewrite app_nil_r.
  - destruct (api_item item l) as [l'|e] eqn:Hi; [|discriminate].
    destruct (api_item_app _ _ _ Hi) as [d [Hd ->]]. rewrite Hd.
    intros H. rewrite (IH _ H). now rewrite app_assoc.
Qed.

(** C5, as the code has it.  On the generic path, entered with no
    candidate left by the API block, one call returns at most 6
    candidates with pairwise distinct links, and they are the first six
    of the accepted anchors deduplicated by resolved link, the first
    occurrence winning.  On the structured path the call returns one
    candidate for each item of the API that has a headline, in the
    order of the API, with no deduplication and no cap of its own. *)
Theorem discover_cap_and_dedup (w : World) (url source_name : string)
    (SYSTEM_LOGS0 : list string) :
  url <> EmptyString ->
  (generic_path w url ->
   exists r,
     fst (universal_intercept w url source_name SYSTEM_LOGS0) = Return r /\
     length r <= 6 /\ NoDup (map link r) /\
     forall p links,
       urlparse w url = Return p -> get_anchors w url = Return links ->
       r = Spec.discover p links) /\
  (forall p items,
     PyStr.contains "prothomalo" url = true ->
     urlparse w url = Return p ->
     api_fetch w (slug_of url p) = Return items ->
     snd (api_items items []) = None ->
     Spec.api_candidates items <> [] ->
     fst (universal_intercept w url source_name SYSTEM_LOGS0)
     = Return (Spec.api_candidates items)).
Proof.
  intros Hne. split.
  - intros Hgen.
    exists (fst (heuristic_mode w url source_name [] SYSTEM_LOGS0)).
    split; [|split; [|split]].
    + now apply intercept_generic_path.
    + apply heuristic_from_empty_bounds.
    + apply heuristic_from_empty_bounds.
    + intros p links Hp Hg. now apply heuristic_from_empty_refines.
  - intros p items Hc Hp Hf Hnone Hnonempty.
    destruct (api_items items []) as [r o] eqn:Hitems. cbn in Hnone. subst o.
    pose proof (api_items_candidates _ _ _ Hitems) as Hr. cbn in Hr. subst r.
    destruct (Spec.api_candidates items) as [|x l] eqn:Hcs; [contradiction|].
    rewrite (intercept_api_success w url source_name SYSTEM_LOGS0 p x l);
      [reflexivity | assumption | assumption | assumption |].
    unfold api_mode. now rewrite Hf.
Qed.

Lemma discover_cap_and_dedup_witness :
  (exists r,
     fst (universal_intercept (Lab.with_page Lab.page_twice)
            "https://news.example/world" "Example" []) = Return r /\
     length r <= 6 /\ NoDup (map link r) /\
     forall p links,
       urlparse (Lab.with_page Lab.page_twice) "https://news.example/world" = Return p ->
       get_anchors (Lab.with_page Lab.page_twice) "https://news.example/world"
       = Return links ->
       r = Spec.discover p links) /\
  fst (universal_intercept (Lab.with_api Lab.api_twice)
         "https://www.prothomalo.com/business" "Prothom Alo" [])
  = Return (Spec.api_candidates
              [Lab.story "Budget passed" "business/budget-passed";
               Lab.story "Budget passed" "business/budget-passed"]).
Proof.
  split.
  - refine (proj1 (discover_cap_and_dedup (Lab.with_page Lab.page_twice)
                     "https://news.example/world" "Example" [] _)
                  (or_introl eq_refl)).
    discriminate.
  - refine (proj2 (discover_cap_and_dedup (Lab.with_api Lab.api_twice)
                     "https://www.prothomalo.com/business" "Prothom Alo" [] _)
                  {| scheme := "https"; netloc := "www.prothomalo.com";
                     path := "/business" |}
                  _ eq_refl eq_refl eq_refl eq_refl _);
      discriminate.
Defined.

(** C5 as stated fails on the structured path: a story the API lists
    twice is returned twice, with the same link. *)
Lemma api_path_keeps_duplicates :
  fst (universal_intercept (Lab.with_api Lab.api_twice)
         "https://www.prothomalo.com/business" "Prothom Alo" [])
  = Return [{| title := JStr "Budget passed";
               link := "https://www.prothomalo.com/business/budget-passed" |};
            {| title := JStr "Budget passed";
               link := "https://www.prothomalo.com/business/budget-passed" |}]
  /\ ~ NoDup (map link
                [{| title := JStr "Budget passed";
                    link := "https://www.prothomalo.com/business/budget-passed" |};
                 {| title := JStr "Budget passed";
                    link := "https://www.prothomalo.com/business/budget-passed" |}]).
Proof.
  split; [reflexivity|].
  cbn. intros H. inversion H as [|x l Hnotin _]. apply Hnotin. now left.
Qed.

(** *** Failures of the discovery *)

(** C8, where the code departs from it: for a URL of the API outlet
    that [urlparse] refuses, the exception of line 68 leaves
    [universal_intercept], and nothing is logged. *)
Theorem intercept_raises_on_unparsable_url (w : World) (url source_name : string)
    (SYSTEM_LOGS0 : list string) (e : exn) :
  url <> EmptyString ->
  PyStr.contains "prothomalo" url = true ->
  urlparse w url = Raise e ->
  universal_intercept w url source_name SYSTEM_LOGS0 = (Raise e, SYSTEM_LOGS0).
Proof.
  intros Hne Hc Hp. unfold universal_intercept.
  apply String.eqb_neq in Hne. now rewrite Hne, Hc, Hp.
Qed.

Lemma intercept_raises_witness :
  universal_intercept Lab.offline "http://[prothomalo" "Example" []
  = (Raise ValueError, []).
Proof.
  apply intercept_raises_on_unparsable_url; [discriminate | reflexivity | reflexivity].
Defined.

(** Everywhere else the call returns: a URL that is empty, or not of
    the API outlet, or that [urlparse] accepts. *)
Lemma intercept_returns (w : World) (url source_name : string)
    (SYSTEM_LOGS0 : list string) :
  url = EmptyString \/ PyStr.contains "prothomalo" url = false \/
  (exists p, urlparse w url = Return p) ->
  exists r, fst (universal_intercept w url source_name SYSTEM_LOGS0) = Return r.
Proof.
  unfold universal_intercept. intros H.
  destruct (String.eqb url EmptyString) eqn:He; [now eexists|].
  destruct (PyStr.contains "prothomalo" url) eqn:Hc.
  - destruct H as [->|[?|[p Hp]]]; [discriminate | discriminate|].
    rewrite Hp. destruct (api_mode w (slug_of url p)) as [[|x l] [e|]];
      try destruct (heuristic_mode _ _ _ _ _); now eexists.
  - destruct (heuristic_mode _ _ _ _ _). now eexists.
Qed.

(** A page that cannot be fetched gives the empty list and one log
    entry, for a URL that is not of the API outlet. *)
Lemma intercept_unreachable (w : World) (url source_name : string)
    (SYSTEM_LOGS0 : list string) (e : exn) :
  url <> EmptyString -> PyStr.contains "prothomalo" url = false ->
  get_anchors w url = Raise e ->
  universal_intercept w url source_name SYSTEM_LOGS0
  = (Return [],
     add_log w ("INTERCEPT_FAILURE: " +++ source_name +++ " unreachable.")
             SYSTEM_LOGS0).
Proof.
  intros Hne Hc Hg. unfold universal_intercept, heuristic_mode.
  apply String.eqb_neq in Hne. now rewrite Hne, Hc, Hg.
Qed.

(** ** Summarisation *)

Section Summary.

Variable w : World.
Variable url : string.

Lemma take_length (n : nat) (s : string) :
  String.length (PyStr.take n s) = Nat.min n (String.length s).
Proof.
  unfold PyStr.take. revert s. induction n as [|n IH]; intros [|c s]; cbn;
    try reflexivity.
  now rewrite IH.
Qed.

Lemma take_prefix (n : nat) (s : string) :
  String.prefix (PyStr.take n s) s = true.
Proof.
  unfold PyStr.take. revert s. induction n as [|n IH]; intros [|c s]; cbn;
    try reflexivity.
  rewrite IH. now destruct (ascii_dec c c).
Qed.

(** C6: with the model ready and the article fetched, a text (the first
    8 paragraphs at most, joined by single spaces) of fewer than 200
    characters gives the "insufficient data" sentinel and the model is
    not run; a text of 200 characters or more has the model run once,
    on its first 2500 characters. *)
Theorem summary_threshold (paragraphs : list string) :
  get_paragraphs w url = Return paragraphs ->
  let txt := PyStr.join " " (firstn 8 paragraphs) in
  (String.length txt < 200 ->
   get_deep_summary w true url = (Return MSG_INSUFFICIENT, [HttpGet url])) /\
  (200 <= String.length txt ->
   exists input,
     snd (get_deep_summary w true url) = [HttpGet url; Infer input] /\
     String.prefix input txt = true /\
     String.length input = Nat.min 2500 (String.length txt) /\
     forall s, summarizer w input = Return s ->
               fst (get_deep_summary w true url) = Return s).
Proof.
  intros Hg txt. unfold get_deep_summary, deep_summary_body. cbn [negb].
  rewrite Hg. fold (article_text paragraphs). unfold article_text. fold txt.
  split.
  - intros Hlt. apply Nat.ltb_lt in Hlt. now rewrite Hlt.
  - intros Hge. apply Nat.ltb_ge in Hge. rewrite Hge.
    exists (PyStr.take 2500 txt).
    split; [|split; [apply take_prefix | split; [apply take_length|]]].
    + now destruct (summarizer w (PyStr.take 2500 txt)).
    + intros s Hs. now rewrite Hs.
Qed.

(** C7: [get_deep_summary] always returns a string.  With the model not
    loaded it is the "initializing" sentinel and no call is made; an
    exception of the fetch, of the extraction or of the model becomes
    the "interrupted" sentinel. *)
Theorem summary_never_raises (is_model_ready : bool) :
  (exists s, fst (get_deep_summary w is_model_ready url) = Return s) /\
  (is_model_ready = false ->
   get_deep_summary w is_model_ready url = (Return MSG_INITIALIZING, [])) /\
  (is_model_ready = true ->
   forall e, fst (deep_summary_body w url) = Raise e ->
             fst (get_deep_summary w is_model_ready url) = Return MSG_INTERRUPTED).
Proof.
  unfold get_deep_summary. split; [|split].
  - destruct is_model_ready; cbn [negb]; [|now eexists].
    destruct (deep_summary_body w url) as [[s|e] calls]; now eexists.
  - now intros ->.
  - intros -> e He. cbn [negb].
    destruct (deep_summary_body w url) as [[s|e'] calls]; [discriminate|].
    reflexivity.
Qed.

(** The exceptions of the body: the fetch or the extraction, and the model. *)
Lemma body_raises_iff (e : exn) :
  fst (deep_summary_body w url) = Raise e <->
  get_paragraphs w url = Raise e \/
  exists paragraphs,
    get_paragraphs w url = Return paragraphs /\
    200 <= String.length (article_text paragraphs) /\
    summarizer w (PyStr.take 2500 (article_text paragraphs)) = Raise e.
Proof.
  unfold deep_summary_body.
  destruct (get_paragraphs w url) as [ps|e0].
  - destruct (String.length (article_text ps) <? 200) eqn:Hlt; cbn [fst].
    + split; [discriminate|]. intros [?|[ps' [[= <-] [Hge _]]]]; [discriminate|].
      apply Nat.ltb_lt in Hlt. lia.
    + apply Nat.ltb_ge in Hlt. split.
      * intros H. right. now exists ps.
      * intros [?|[ps' [[= <-] [_ H]]]]; [discriminate | assumption].
  - cbn. split.
    + intros [= ->]. now left.
    + intros [[= ->]|[ps [? _]]]; [reflexivity | discriminate].
Qed.

End Summary.

Lemma summary_threshold_witness :
  get_deep_summary (Lab.with_article [Lab.chars 199 "a"] (Return "Summary."))
                   true "https://news.example/a"
  = (Return MSG_INSUFFICIENT, [HttpGet "https://news.example/a"]) /\
  exists input,
    snd (get_deep_summary
           (Lab.with_article [Lab.chars 100 "a"; Lab.chars 99 "b"] (Return "Summary."))
           true "https://news.example/a")
    = [HttpGet "https://news.example/a"; Infer input] /\
    String.prefix input
      (PyStr.join " " (firstn 8 [Lab.chars 100 "a"; Lab.chars 99 "b"])) = true /\
    String.length input
    = Nat.min 2500
        (String.length (PyStr.join " " (firstn 8 [Lab.chars 100 "a"; Lab.chars 99 "b"]))) /\
    forall s,
      summarizer (Lab.with_article [Lab.chars 100 "a"; Lab.chars 99 "b"]
                    (Return "Summary.")) input = Return s ->
      fst (get_deep_summary
             (Lab.with_article [Lab.chars 100 "a"; Lab.chars 99 "b"] (Return "Summary."))
             true "https://news.example/a") = Return s.
Proof.
  split.
  - refine (proj1 (summary_threshold
                     (Lab.with_article [Lab.chars 199 "a"] (Return "Summary."))
                     "https://news.example/a" [Lab.chars 199 "a"] eq_refl) _).
    vm_compute. lia.
  - refine (proj2 (summary_threshold
                     (Lab.with_article [Lab.chars 100 "a"; Lab.chars 99 "b"]
                        (Return "Summary."))
                     "https://news.example/a" [Lab.chars 100 "a"; Lab.chars 99 "b"]
                     eq_refl) _).
    vm_compute. lia.
Defined.

Lemma summary_never_raises_witness :
  get_deep_summary Lab.offline false "https://news.example/a"
  = (Return MSG_INITIALIZING, []) /\
  fst (get_deep_summary Lab.offline true "https://news.example/a")
  = Return MSG_INTERRUPTED.
Proof.
  split.
  - exact (proj1 (proj2 (summary_never_raises Lab.offline "https://news.example/a"
                           false)) eq_refl).
  - exact (proj2 (proj2 (summary_never_raises Lab.offline "https://news.example/a"
                           true)) eq_refl RequestException eq_refl).
Defined.

(** ** The process *)

Lemma heap_append_length (a : Ref) (x : IntelItem) (h : list (list IntelItem)) :
  length (heap_append a x h) = length h.
Proof.
  revert a. induction h as [|l h IH]; intros [|a]; cbn; auto.
Qed.

Lemma heap_append_other (a b : Ref) (x : IntelItem) (h : list (list IntelItem)) :
  a <> b -> nth b (heap_append a x h) [] = nth b h [].
Proof.
  revert a b. induction h as [|l h IH]; intros [|a] [|b] Hne; cbn; auto.
  contradiction.
Qed.

Lemma heap_append_same (a : Ref) (x : IntelItem) (h : list (list IntelItem)) :
  a < length h -> nth a (heap_append a x h) [] = nth a h [] ++ [x].
Proof.
  revert a. induction h as [|l h IH]; intros [|a] Hlt; cbn in *; try lia; auto.
  apply IH. lia.
Qed.

Lemma exec_separate (ev : Event) (s s' : State) :
  exec ev s = Some s' -> separate s -> separate s'.
Proof.
  unfold separate. intros H [Hc [Ht Hne]].
  exec_cases ev s H;
    try (unfold add_paper; destruct (String.eqb _ _));
    state_simpl;
    repeat match goal with
           | Hp : pc s = _ |- _ => rewrite Hp in Hne; cbn [building] in Hne
           end;
    rewrite ?length_app, ?heap_append_length; cbn [length building];
    repeat split; try lia; try tauto; auto.
Qed.

Lemma separate_initial : separate initial_state.
Proof. repeat split; cbn; try lia; intros []. Qed.

Lemma run_separate (evs : list Event) (s s' : State) :
  run evs s = Some s' -> separate s -> separate s'.
Proof.
  revert s. induction evs as [|ev evs IH]; intros s; cbn.
  - now intros [= <-].
  - destruct (exec ev s) as [s1|] eqn:He; [|discriminate].
    intros Hr Hs. apply (IH _ Hr). now apply (exec_separate ev s).
Qed.

(** Only the worker standing at line 150 changes what a reader of
    [INTEL_CACHE] sees, and it changes it to its buffer. *)
Lemma exec_snapshot (ev : Event) (s s' : State) :
  exec ev s = Some s' -> separate s ->
  current_snapshot s' = current_snapshot s \/
  (is_worker ev = true /\ pc s = AtPublish /\ pc s' = AtLog /\
   current_snapshot s' = buffer s).
Proof.
  unfold separate, current_snapshot, buffer, deref. intros H [Hc [Ht Hne]].
  exec_cases ev s H;
    try (unfold add_paper; destruct (String.eqb _ _));
    state_simpl;
    repeat match goal with
           | Hp : pc s = _ |- _ => rewrite Hp in Hne; cbn [building] in Hne
           end;
    try (left; reflexivity).
  - left. now rewrite app_nth1.
  - left. apply heap_append_other, Hne. exact I.
  - right. repeat split; assumption.
Qed.

Lemma exec_pc_publish (ev : Event) (s s' : State) :
  exec ev s = Some s' -> pc s' = AtPublish ->
  pc s = AtPublish \/ (is_worker ev = true /\ pc s = InOutlets []).
Proof.
  intros H. exec_cases ev s H; cbn; try discriminate; try (now left);
    try (now right).
  unfold add_paper. destruct (String.eqb type "national"); now left.
Qed.

Lemma visits_head (evs : list Event) (s : State) (seen : list State) :
  visits evs s = Some seen -> exists rest, seen = s :: rest.
Proof.
  destruct evs as [|ev evs]; cbn.
  - intros [= <-]. now eexists.
  - destruct (exec ev s) as [s'|]; [|discriminate].
    destruct (visits evs s') as [l|]; [|discriminate].
    intros [= <-]. now eexists.
Qed.

Lemma visits_separate (evs : list Event) (s : State) (seen : list State) :
  visits evs s = Some seen -> separate s -> Forall separate seen.
Proof.
  revert s seen. induction evs as [|ev evs IH]; intros s seen; cbn.
  - intros [= <-] Hs. now constructor.
  - destruct (exec ev s) as [s1|] eqn:He; [|discriminate].
    destruct (visits evs s1) as [l|] eqn:Hv; [|discriminate].
    intros [= <-] Hs. constructor; [assumption|].
    apply (IH s1); [assumption|]. now apply (exec_separate ev s).
Qed.

(** Through the RUNNING phase a reader sees the same snapshot. *)
Lemma running_snapshot_fixed (evs : list Event) (s0 : State) (seen : list State) :
  visits evs s0 = Some seen -> separate s0 -> Forall running seen ->
  Forall (fun s => current_snapshot s = current_snapshot s0) seen.
Proof.
  revert s0 seen. induction evs as [|ev evs IH]; intros s0 seen; cbn.
  - intros [= <-] _ _. now constructor.
  - destruct (exec ev s0) as [s1|] eqn:He; [|discriminate].
    destruct (visits evs s1) as [l|] eqn:Hv; [|discriminate].
    intros [= <-] Hsep Hrun. inversion Hrun as [|? ? Hr0 Hrl]; subst.
    constructor; [reflexivity|].
    destruct (visits_head _ _ _ Hv) as [rest ->].
    assert (current_snapshot s1 = current_snapshot s0) as Heq.
    { destruct (exec_snapshot _ _ _ He Hsep) as [?|[_ [_ [Hpc _]]]]; [assumption|].
      inversion Hrl as [|? ? Hr1 _]. unfold running in Hr1.
      rewrite Hpc in Hr1. contradiction. }
    rewrite <- Heq. apply IH; [assumption | | assumption].
    now apply (exec_separate ev s0).
Qed.

(** Whatever a reader sees is what the cache held at the start or a
    buffer as the worker held it at line 150. *)
Lemma snapshot_is_published (evs : list Event) (s0 : State) (seen : list State) :
  visits evs s0 = Some seen -> separate s0 ->
  Forall (fun s => current_snapshot s = current_snapshot s0 \/
                   exists sp, In sp seen /\ pc sp = AtPublish /\
                              current_snapshot s = buffer sp) seen.
Proof.
  revert s0 seen. induction evs as [|ev evs IH]; intros s0 seen; cbn.
  - intros [= <-] _. constructor; [now left | constructor].
  - destruct (exec ev s0) as [s1|] eqn:He; [|discriminate].
    destruct (visits evs s1) as [l|] eqn:Hv; [|discriminate].
    intros [= <-] Hsep. constructor; [now left|].
    specialize (IH _ _ Hv (exec_separate _ _ _ He Hsep)).
    rewrite Forall_forall in IH |- *.
    intros s Hs. destruct (IH s Hs) as [Heq|[sp [Hsp [Hpc Heq]]]].
    + destruct (exec_snapshot _ _ _ He Hsep) as [Heq'|[_ [Hpc [_ Heq']]]].
      * left. congruence.
      * right. exists s0. split; [now left | split; [assumption | congruence]].
    + right. exists sp. split; [now right | now split].
Qed.

(** C1: in any execution of the process, a reader of [INTEL_CACHE]
    while a cycle is RUNNING sees the snapshot published before, whole,
    although the worker appends to its buffer meanwhile; whatever is
    read at any time is that snapshot or a buffer as the worker held it
    at the assignment of line 150, after its loops; and that assignment
    is the only step that changes what a reader sees. *)
Theorem snapshot_atomic (before evs : list Event) (s0 : State) (seen : list State) :
  run before initial_state = Some s0 ->
  visits evs s0 = Some seen ->
  (Forall running seen ->
   Forall (fun s => current_snapshot s = current_snapshot s0) seen) /\
  Forall (fun s => current_snapshot s = current_snapshot s0 \/
                   exists sp, In sp seen /\ pc sp = AtPublish /\
                              current_snapshot s = buffer sp) seen /\
  (forall s ev s',
     In s seen -> exec ev s = Some s' ->
     current_snapshot s' <> current_snapshot s ->
     is_worker ev = true /\ pc s = AtPublish /\ current_snapshot s' = buffer s) /\
  (forall s ev s',
     In s seen -> exec ev s = Some s' -> pc s' = AtPublish ->
     pc s = AtPublish \/ (is_worker ev = true /\ pc s = InOutlets [])).
Proof.
  intros Hreach Hv.
  pose proof (run_separate _ _ _ Hreach separate_initial) as Hsep.
  split; [|split; [|split]].
  - now apply running_snapshot_fixed with (evs := evs).
  - now apply snapshot_is_published with (evs := evs).
  - intros s ev s' Hin He Hne.
    pose proof (visits_separate _ _ _ Hv Hsep) as Hall.
    rewrite Forall_forall in Hall.
    destruct (exec_snapshot _ _ _ He (Hall s Hin)) as [?|[? [? [_ ?]]]];
      [contradiction | auto].
  - intros s ev s' _. apply exec_pc_publish.
Qed.

Lemma snapshot_atomic_witness :
  let s0 := Lab.state_after Lab.first_cycle initial_state in
  exists seen,
    visits Lab.second_cycle s0 = Some seen /\
    length (current_snapshot s0) = 6 /\
    length (buffer (nth 9 seen s0)) = 2 /\
    Forall (fun s => current_snapshot s = current_snapshot s0) seen.
Proof.
  intros s0.
  exists (match visits Lab.second_cycle s0 with Some seen => seen | None => [] end).
  split; [vm_compute; reflexivity|].
  split; [reflexivity|].
  split; [reflexivity|].
  refine (proj1 (snapshot_atomic Lab.first_cycle Lab.second_cycle s0
                   (match visits Lab.second_cycle s0 with
                    | Some seen => seen
                    | None => []
                    end) _ _) _).
  - vm_compute. reflexivity.
  - vm_compute. reflexivity.
  - vm_compute. repeat constructor.
Defined.

(** *** The registry copy *)

Lemma heap_append_Forall (P : IntelItem -> Prop) (a : Ref) (x : IntelItem)
    (h : list (list IntelItem)) :
  Forall P (nth a h []) -> P x -> Forall P (nth a (heap_append a x h) []).
Proof.
  revert a. induction h as [|l h IH]; intros [|a] Hall Hx; cbn in *; auto.
  apply Forall_app. split; [assumption | now constructor].
Qed.

Lemma exec_fresh_at_copy (ev : Event) (s s' : State) :
  exec ev s = Some s' -> fresh_at_copy s -> fresh_at_copy s'.
Proof.
  unfold fresh_at_copy, buffer, deref. intros H.
  exec_cases ev s H;
    try (unfold add_paper; destruct (String.eqb _ _));
    state_simpl; try discriminate; auto; try congruence.
  intros _ _. now rewrite nth_middle.
Qed.

Lemma run_fresh_at_copy (evs : list Event) (s s' : State) :
  run evs s = Some s' -> fresh_at_copy s -> fresh_at_copy s'.
Proof.
  revert s. induction evs as [|ev evs IH]; intros s; cbn.
  - now intros [= <-].
  - destruct (exec ev s) as [s1|] eqn:He; [|discriminate].
    intros Hr Hf. apply (IH _ Hr). now apply (exec_fresh_at_copy ev s).
Qed.

(** A step that is not the copy keeps the buffer and the loop within
    the outlets of the copy, whatever happens to the live registry. *)
Lemma exec_within (R : Registry) (ev : Event) (s s' : State) :
  exec ev s = Some s' -> pc s <> AtCopy -> within R s -> within R s'.
Proof.
  unfold within, buffer, deref. intros H Hpc [Hbuf Hpend].
  exec_cases ev s H;
    try (unfold add_paper; destruct (String.eqb _ _));
    state_simpl; cbn [pending_names];
    match goal with
    | Hp : pc s = _ |- _ => rewrite Hp in Hpend; cbn [pending_names map fst] in Hpend
    | _ => idtac
    end;
    try contradiction;
    (split;
     [ first [ assumption
             | rewrite nth_middle; constructor
             | apply heap_append_Forall;
               [assumption | cbn; apply Hpend; now left] ]
     | first [ assumption | intros x []
             | intros x Hx; apply Hpend; cbn in Hx |- *; tauto ] ]).
Qed.

Lemma visits_within (R : Registry) (evs : list Event) (s : State) (seen : list State) :
  visits evs s = Some seen ->
  Forall (fun st => pc st <> AtCopy) seen ->
  within R s -> Forall (within R) seen.
Proof.
  revert s seen. induction evs as [|ev evs IH]; intros s seen; cbn.
  - intros [= <-] _ Hw. now constructor.
  - destruct (exec ev s) as [s1|] eqn:He; [|discriminate].
    destruct (visits evs s1) as [l|] eqn:Hv; [|discriminate].
    intros [= <-] Hpc Hw. inversion Hpc as [|? ? Hpc0 Hpcl]; subst.
    constructor; [assumption|].
    apply (IH s1); [assumption | assumption |].
    now apply (exec_within R ev s).
Qed.

(** C2: in any execution of the process, when the worker copies the
    registry (line 134) the registry holds [R]; whatever the handlers do
    to the registry while the cycle is in flight, the snapshot this
    cycle publishes names only outlets of [R]. *)
Theorem snapshot_sources_from_copy (before evs : list Event)
    (s0 s1 s2 s3 : State) (seen : list State) (w0 w2 : World) (t0 t2 : bool) :
  run before initial_state = Some s0 ->
  pc s0 = AtCopy ->
  exec (Worker w0 t0) s0 = Some s1 ->
  visits evs s1 = Some seen ->
  Forall (fun st => pc st <> AtCopy) seen ->
  In s2 seen ->
  pc s2 = AtPublish ->
  exec (Worker w2 t2) s2 = Some s3 ->
  Forall (fun n => In (source n) (map fst (TARGET_GRID s0))) (current_snapshot s3).
Proof.
  intros Hreach Hpc0 Hcopy Hv Hnocopy Hin Hpc2 Hpub.
  assert (buffer s0 = []) as Hfresh.
  { apply (run_fresh_at_copy before initial_state s0 Hreach); [|assumption].
    intros Hp. discriminate Hp. }
  assert (within (TARGET_GRID s0) s1) as Hw1.
  { cbn in Hcopy. unfold worker_step in Hcopy. rewrite Hpc0 in Hcopy.
    injection Hcopy as <-. split.
    - change (Forall (fun n => In (source n) (map fst (TARGET_GRID s0))) (buffer s0)).
      rewrite Hfresh. constructor.
    - cbn. apply incl_refl. }
  pose proof (visits_within _ _ _ _ Hv Hnocopy Hw1) as Hall.
  rewrite Forall_forall in Hall. destruct (Hall s2 Hin) as [Hbuf _].
  cbn in Hpub. unfold worker_step in Hpub. rewrite Hpc2 in Hpub.
  injection Hpub as <-. exact Hbuf.
Qed.

Lemma snapshot_sources_witness :
  let s0 := Lab.state_after [Worker Lab.newsroom false] initial_state in
  let s3 := Lab.state_after
              (Worker Lab.newsroom false :: Lab.edits_in_flight
               ++ [Worker Lab.newsroom false]) s0 in
  map fst (TARGET_GRID s0) = ["Prothom Alo"] /\
  map fst (TARGET_GRID s3) = ["Al Jazeera"] /\
  length (current_snapshot s3) = 6 /\
  Forall (fun n => In (source n) (map fst (TARGET_GRID s0))) (current_snapshot s3).
Proof.
  intros s0 s3.
  split; [reflexivity | split; [reflexivity | split; [reflexivity|]]].
  refine (snapshot_sources_from_copy
            [Worker Lab.newsroom false] Lab.edits_in_flight
            s0 (Lab.state_after [Worker Lab.newsroom false] s0)
            (Lab.state_after (Worker Lab.newsroom false :: Lab.edits_in_flight) s0)
            s3
            (match visits Lab.edits_in_flight
                     (Lab.state_after [Worker Lab.newsroom false] s0) with
             | Some seen => seen
             | None => []
             end)
            Lab.newsroom Lab.newsroom false false _ _ _ _ _ _ _ _).
  - reflexivity.
  - reflexivity.
  - reflexivity.
  - vm_compute. reflexivity.
  - vm_compute. repeat (constructor; [discriminate|]). constructor.
  - vm_compute. repeat (first [left; reflexivity | right]).
  - reflexivity.
  - vm_compute. reflexivity.
Defined.

(** *** The manual trigger *)

(** Away from line 155 the trigger is only ever set. *)
Lemma exec_trigger_set (ev : Event) (s s' : State) :
  exec ev s = Some s' -> pc s <> AtClear ->
  trigger_sync_now s' = trigger_sync_now s || is_force ev.
Proof.
  intros H Hpc.
  exec_cases ev s H;
    try (unfold add_paper; destruct (String.eqb _ _));
    cbn; try contradiction;
    try (now rewrite orb_false_r); try (now rewrite orb_true_r).
Qed.

(** Without a call of [force_sync] a clear trigger stays clear. *)
Lemma exec_trigger_clear (ev : Event) (s s' : State) :
  exec ev s = Some s' -> is_force ev = false ->
  trigger_sync_now s = false -> trigger_sync_now s' = false.
Proof.
  intros H Hf Ht.
  exec_cases ev s H;
    try (unfold add_paper; destruct (String.eqb _ _));
    cbn; try assumption; try reflexivity; try discriminate.
Qed.

Lemma count_force_cons (ev : Event) (evs : list Event) :
  count_force (ev :: evs) = (if is_force ev then 1 else 0) + count_force evs.
Proof. unfold count_force. cbn. now destruct (is_force ev). Qed.

Lemma last_nonempty {A : Type} (x : A) (l : list A) (d d' : A) :
  last (x :: l) d = last (x :: l) d'.
Proof.
  revert x. induction l as [|y l IH]; intros x; [reflexivity|].
  change (last (y :: l) d = last (y :: l) d'). apply IH.
Qed.

Lemma window_trigger (evs : list Event) (s0 : State) (seen : list State) :
  visits evs s0 = Some seen ->
  Forall (fun st => pc st <> AtClear) seen ->
  trigger_sync_now (last seen s0)
  = trigger_sync_now s0 || (1 <=? count_force evs).
Proof.
  revert s0 seen. induction evs as [|ev evs IH]; intros s0 seen; cbn [visits].
  - intros [= <-] _. cbn. now rewrite orb_false_r.
  - destruct (exec ev s0) as [s1|] eqn:He; [|discriminate].
    destruct (visits evs s1) as [l|] eqn:Hv; [|discriminate].
    intros [= <-] Hpc. inversion Hpc as [|? ? Hpc0 Hpcl]; subst.
    destruct (visits_head _ _ _ Hv) as [rest ->].
    change (last (s0 :: s1 :: rest) s0) with (last (s1 :: rest) s0).
    rewrite (last_nonempty s1 rest s0 s1).
    rewrite (IH _ _ Hv Hpcl), (exec_trigger_set _ _ _ He Hpc0), count_force_cons.
    destruct (is_force ev), (trigger_sync_now s0); cbn; try reflexivity;
      now destruct (count_force evs).
Qed.

Lemma idle_trigger (evs : list Event) (s s' : State) :
  run evs s = Some s' -> count_force evs = 0 ->
  trigger_sync_now s = false -> trigger_sync_now s' = false.
Proof.
  revert s. induction evs as [|ev evs IH]; intros s; cbn [run].
  - now intros [= <-].
  - destruct (exec ev s) as [s1|] eqn:He; [|discriminate].
    rewrite count_force_cons. intros Hr Hc Ht.
    destruct (is_force ev) eqn:Hf; [discriminate|].
    apply (IH s1 Hr Hc). now apply (exec_trigger_clear ev s).
Qed.

(** C9, as the code has it: [N >= 1] calls of [force_sync] made after
    the worker has cleared the trigger and before its next wake (no
    state of the window stands at line 155) end the wait at once,
    without a timeout; the clear that follows resets the trigger, and
    with no further call it stays clear, so the wait after the
    triggered cycle ends only by its timeout: one triggered cycle,
    whatever [N]. *)
Theorem force_sync_collapses (N : nat) (evs : list Event) (s0 s1 : State)
    (seen : list State) (w : World) :
  visits evs s0 = Some seen ->
  Forall (fun st => pc st <> AtClear) seen ->
  count_force evs = N -> 1 <= N ->
  last seen s0 = s1 ->
  pc s1 = AtWait ->
  exists s2 s3,
    exec (Worker w false) s1 = Some s2 /\ pc s2 = AtClear /\
    exec (Worker w false) s2 = Some s3 /\ pc s3 = AtTop /\
    trigger_sync_now s3 = false /\
    forall later s4,
      count_force later = 0 -> run later s3 = Some s4 ->
      trigger_sync_now s4 = false /\
      (pc s4 = AtWait -> forall w', exec (Worker w' false) s4 = None).
Proof.
  intros Hv Hwin HN Hpos Hlast Hpc.
  pose proof (window_trigger _ _ _ Hv Hwin) as Ht.
  rewrite Hlast, HN in Ht.
  replace (1 <=? N) with true in Ht by (symmetry; now apply Nat.leb_le).
  rewrite orb_true_r in Ht.
  exists (set_pc AtClear s1), (set_pc AtTop (set_trigger false (set_pc AtClear s1))).
  cbn [exec]. unfold worker_step. rewrite Hpc, Ht. cbn.
  do 5 (split; [reflexivity|]).
  intros later s4 Hcount Hrun.
  assert (trigger_sync_now s4 = false) as Ht4
    by now apply (idle_trigger later
                    (set_pc AtTop (set_trigger false (set_pc AtClear s1))) s4).
  split; [assumption|].
  intros Hpc4 w'. now rewrite Hpc4, Ht4.
Qed.

Lemma force_sync_collapses_witness :
  exists s2 s3,
    exec (Worker Lab.newsroom false) (Lab.state_after Lab.three_calls initial_state)
    = Some s2 /\ pc s2 = AtClear /\
    exec (Worker Lab.newsroom false) s2 = Some s3 /\ pc s3 = AtTop /\
    trigger_sync_now s3 = false /\
    forall later s4,
      count_force later = 0 -> run later s3 = Some s4 ->
      trigger_sync_now s4 = false /\
      (pc s4 = AtWait -> forall w', exec (Worker w' false) s4 = None).
Proof.
  refine (force_sync_collapses 3 Lab.three_calls initial_state
            (Lab.state_after Lab.three_calls initial_state)
            (match visits Lab.three_calls initial_state with
             | Some seen => seen
             | None => []
             end)
            Lab.newsroom _ _ _ _ _ _).
  - vm_compute. reflexivity.
  - vm_compute. repeat (constructor; [discriminate|]). constructor.
  - reflexivity.
  - lia.
  - vm_compute. reflexivity.
  - reflexivity.
Defined.

(** C9 as stated fails between a wake and the clear that follows it:
    the wait of the first cycle ends by its timeout, [force_sync] is
    called once before line 155 runs, the clear drops the call, and
    after the cycle that was due anyway the worker waits with the
    trigger clear: the call triggered no cycle. *)
Lemma force_sync_lost_before_clear :
  exists woken waiting,
    run (repeat (Worker Lab.newsroom false) 19 ++ [Worker Lab.newsroom true])
        initial_state = Some woken /\
    pc woken = AtClear /\
    run (ForceSync Lab.newsroom :: repeat (Worker Lab.newsroom false) 20) woken
    = Some waiting /\
    count_force (repeat (Worker Lab.newsroom false) 20) = 0 /\
    pc waiting = AtWait /\
    trigger_sync_now waiting = false /\
    exec (Worker Lab.newsroom false) waiting = None.
Proof.
  do 2 eexists.
  split; [vm_compute; reflexivity|].
  split; [reflexivity|].
  split; [vm_compute; reflexivity|].
  repeat split.
Qed.


(** * Further properties *)

(** ** The operational log *)

Lemma add_log_length (w : World) (msg : string) (l : list string) :
  length l <= 30 -> length (add_log w msg l) <= 30.
Proof.
  intros H. unfold add_log. rewrite length_app. cbn [length].
  destruct (30 <? length l + 1) eqn:Hfull.
  - destruct l as [|x l]; cbn in *; [lia|]. rewrite length_app. cbn. lia.
  - apply Nat.ltb_ge in Hfull. rewrite length_app. cbn. lia.
Qed.

(** X1: [add_log] on a log of at most 30 entries leaves at most 30
    entries, the new stamped entry last; below 30 entries nothing is
    dropped, at 30 exactly the oldest entry is. *)
Theorem add_log_ring (w : World) (msg : string) (l : list string) :
  length l <= 30 ->
  let entry := "[" +++ now_hms w +++ "] " +++ msg in
  length (add_log w msg l) <= 30 /\
  last (add_log w msg l) EmptyString = entry /\
  (length l < 30 -> add_log w msg l = l ++ [entry]) /\
  (length l = 30 -> add_log w msg l = tl l ++ [entry]).
Proof.
  intros H entry. split; [now apply add_log_length|].
  unfold add_log. fold entry. rewrite length_app. cbn [length].
  destruct (30 <? length l + 1) eqn:Hfull.
  - apply Nat.ltb_lt in Hfull. assert (length l = 30) as H30 by lia.
    destruct l as [|x l]; [discriminate|]. cbn [app tl].
    split; [apply last_last|]. split; [lia | reflexivity].
  - apply Nat.ltb_ge in Hfull.
    split; [apply last_last|]. split; [reflexivity | lia].
Qed.

Lemma add_log_ring_witness :
  add_log Lab.offline "ping" (repeat "old" 30)
  = tl (repeat "old" 30) ++ ["[12:00:00] ping"].
Proof.
  refine (proj2 (proj2 (proj2 (add_log_ring Lab.offline "ping" (repeat "old" 30) _)))
            eq_refl).
  cbn. lia.
Defined.

Lemma intercept_logs (w : World) (url name : string) (l : list string) :
  snd (universal_intercept w url name l) = l \/
  snd (universal_intercept w url name l)
  = add_log w ("INTERCEPT_FAILURE: " +++ name +++ " unreachable.") l.
Proof.
  assert (forall n, snd (heuristic_mode w url name n l) = l \/
                    snd (heuristic_mode w url name n l)
                    = add_log w ("INTERCEPT_FAILURE: " +++ name +++ " unreachable.") l) as Hh.
  { intros n. unfold heuristic_mode. destruct (get_anchors w url); [|now right].
    destruct (scan_links w url a n) as [n' [e|]]; [now right | now left]. }
  unfold universal_intercept.
  destruct (String.eqb url EmptyString); [now left|].
  destruct (PyStr.contains "prothomalo" url).
  - destruct (urlparse w url); [|now left].
    destruct (api_mode w (slug_of url a)) as [[|x n] [e|]];
      try (now left);
      match goal with |- context [heuristic_mode w url name ?n l] =>
        specialize (Hh n); destruct (heuristic_mode w url name n l); exact Hh end.
  - specialize (Hh []). destruct (heuristic_mode w url name [] l). exact Hh.
Qed.

Lemma exec_logs_bound (ev : Event) (s s' : State) :
  exec ev s = Some s' -> length (SYSTEM_LOGS s) <= 30 -> length (SYSTEM_LOGS s') <= 30.
Proof.
  intros H Hb.
  exec_cases ev s H;
    try (unfold add_paper; destruct (String.eqb _ _));
    state_simpl;
    repeat match goal with
    | He : universal_intercept ?w ?u ?n ?l = (_, ?l') |- _ =>
        let Hi := fresh in
        pose proof (intercept_logs w u n l) as Hi; rewrite He in Hi; cbn [snd] in Hi;
        clear He
    end;
    try assumption;
    repeat first [ apply add_log_length | assumption ].
  all: match goal with H : _ \/ _ |- _ => destruct H as [->| ->] end;
    repeat first [ apply add_log_length | assumption ].
Qed.

Lemma play_invariant (P : State -> Prop) :
  (forall ev s s', exec ev s = Some s' -> P s -> P s') ->
  (forall r s, P s -> P (serve r s)) ->
  forall acts s s', play acts s = Some s' -> P s -> P s'.
Proof.
  intros Hexec Hserve acts. induction acts as [|a acts IH]; intros s s'; cbn.
  - now intros [= <-].
  - destruct a as [ev|r]; cbn.
    + destruct (exec ev s) as [s1|] eqn:He; [|discriminate].
      intros Hp HP. apply (IH s1); [assumption|]. now apply (Hexec ev s).
    + intros Hp HP. apply (IH _ _ Hp). now apply Hserve.
Qed.

Lemma serve_logs_bound (r : Request) (s : State) :
  length (SYSTEM_LOGS s) <= 30 -> length (SYSTEM_LOGS (serve r s)) <= 30.
Proof.
  intros H. destruct r; cbn; try now apply add_log_length.
  unfold auto_archive_log. destruct (current_snapshot s); [assumption|].
  now apply add_log_length.
Qed.

(** X2: whatever the worker, the handlers and the jobs do, each call
    of [add_log] being one step, the log holds at most 30 entries
    after every step. *)
Theorem logs_bounded (acts : list Action) (s : State) :
  play acts initial_state = Some s -> length (SYSTEM_LOGS s) <= 30.
Proof.
  intros H.
  apply (play_invariant (fun st => length (SYSTEM_LOGS st) <= 30)
           exec_logs_bound serve_logs_bound acts initial_state s H).
  cbn. lia.
Qed.

Lemma logs_bounded_witness :
  length (SYSTEM_LOGS (Demo.after Demo.three_cycles initial_state)) <= 30 /\
  hd EmptyString (SYSTEM_LOGS (Demo.after Demo.three_cycles initial_state))
  = "[12:00:00] SYNTHESIZING: Floods close the northern roads for a th...".
Proof.
  split; [|vm_compute; reflexivity].
  apply (logs_bounded Demo.three_cycles). vm_compute. reflexivity.
Defined.

Lemma exec_interval (ev : Event) (s s' : State) :
  exec ev s = Some s' -> (1 <= SYNC_INTERVAL_MINS s)%Z -> (1 <= SYNC_INTERVAL_MINS s')%Z.
Proof.
  intros H Hb.
  exec_cases ev s H;
    try (unfold add_paper; destruct (String.eqb _ _));
    state_simpl; try assumption.
  lia.
Qed.

Lemma serve_interval (r : Request) (s : State) :
  SYNC_INTERVAL_MINS (serve r s) = SYNC_INTERVAL_MINS s.
Proof.
  destruct r; cbn; try reflexivity.
  unfold auto_archive_log. now destruct (current_snapshot s).
Qed.

(** X3: whatever minutes [update_sync_timer] is called with, zero or
    negative ones included, the sync interval never falls below one
    minute. *)
Theorem interval_floor (acts : list Action) (s : State) :
  play acts initial_state = Some s -> (1 <= SYNC_INTERVAL_MINS s)%Z.
Proof.
  intros H.
  apply (play_invariant (fun st => (1 <= SYNC_INTERVAL_MINS st)%Z)
           exec_interval
           (fun r st Hst => eq_ind_r (fun z => (1 <= z)%Z) Hst (serve_interval r st))
           acts initial_state s H).
  cbn. lia.
Qed.

Lemma interval_floor_witness :
  (1 <= SYNC_INTERVAL_MINS
          (Demo.after [Core (UpdateSyncTimer Lab.offline (-5))] initial_state))%Z.
Proof.
  apply (interval_floor [Core (UpdateSyncTimer Lab.offline (-5))]). reflexivity.
Defined.


(** ** The model flag *)

Lemma heap_append_Forall_all (P : IntelItem -> Prop) (a : Ref) (x : IntelItem)
    (h : list (list IntelItem)) :
  Forall (Forall P) h -> P x -> Forall (Forall P) (heap_append a x h).
Proof.
  revert a. induction h as [|l h IH]; intros [|a] Hall Hx; cbn; auto;
    inversion Hall; subst; constructor; auto.
  apply Forall_app. split; [assumption | now constructor].
Qed.

Lemma exec_ready (ev : Event) (s s' : State) :
  exec ev s = Some s' ->
  is_model_ready s' = is_model_ready s || is_loaded (Core ev).
Proof.
  intros H.
  exec_cases ev s H;
    try (unfold add_paper; destruct (String.eqb _ _));
    state_simpl; cbn [is_loaded]; rewrite ?orb_false_r, ?orb_true_r; reflexivity.
Qed.

Lemma serve_ready (r : Request) (s : State) :
  is_model_ready (serve r s) = is_model_ready s.
Proof.
  destruct r; cbn; try reflexivity.
  unfold auto_archive_log. now destruct (current_snapshot s).
Qed.

Lemma play_ready (acts : list Action) (s s' : State) :
  play acts s = Some s' ->
  is_model_ready s' = is_model_ready s || existsb is_loaded acts.
Proof.
  revert s. induction acts as [|a acts IH]; intros s; cbn [play existsb].
  - intros [= <-]. now rewrite orb_false_r.
  - destruct a as [ev|r]; cbn [act].
    + destruct (exec ev s) as [s1|] eqn:He; [|discriminate].
      intros Hp. rewrite (IH _ Hp), (exec_ready _ _ _ He). now rewrite orb_assoc.
    + intros Hp. rewrite (IH _ Hp), serve_ready. reflexivity.
Qed.

Lemma exec_initializing (ev : Event) (s s' : State) :
  exec ev s = Some s' -> is_loaded (Core ev) = false ->
  is_model_ready s = false /\ all_initializing s ->
  is_model_ready s' = false /\ all_initializing s'.
Proof.
  unfold all_initializing. intros H Hl [Hr Hall].
  exec_cases ev s H;
    try (unfold add_paper; destruct (String.eqb _ _));
    state_simpl; try discriminate; try (split; assumption).
  - split; [assumption|]. apply Forall_app. split; [assumption|].
    repeat constructor.
  - split; [assumption|]. apply heap_append_Forall_all; [assumption|].
    cbn. match goal with He : fst (get_deep_summary _ _ _) = _ |- _ =>
      rewrite Hr in He; cbn in He; now injection He as <- end.
Qed.

Lemma serve_initializing (r : Request) (s : State) :
  is_model_ready s = false /\ all_initializing s ->
  is_model_ready (serve r s) = false /\ all_initializing (serve r s).
Proof.
  unfold all_initializing. destruct r; cbn; try tauto.
  unfold auto_archive_log. now destruct (current_snapshot s).
Qed.

Lemma play_initializing (acts : list Action) (s s' : State) :
  play acts s = Some s' -> existsb is_loaded acts = false ->
  is_model_ready s = false /\ all_initializing s ->
  is_model_ready s' = false /\ all_initializing s'.
Proof.
  revert s. induction acts as [|a acts IH]; intros s; cbn [play existsb].
  - now intros [= <-].
  - intros Hp Hl Hs. apply orb_false_iff in Hl. destruct Hl as [Hl1 Hl2].
    destruct a as [ev|r]; cbn [act] in Hp.
    + destruct (exec ev s) as [s1|] eqn:He; [|discriminate].
      apply (IH s1 Hp Hl2). now apply (exec_initializing ev s).
    + apply (IH _ Hp Hl2). now apply serve_initializing.
Qed.

Lemma Forall_nth_default {A} (P : A -> Prop) (l : list A) (d : A) (n : nat) :
  Forall P l -> P d -> P (nth n l d).
Proof.
  intros Hall Hd. revert n. induction Hall; intros [|n]; cbn; auto.
Qed.

(** X4: [is_model_ready] is raised by the success of [load_ai] and by
    nothing else; as long as [load_ai] has not succeeded (it may have
    failed: there is no retry) every summary a reader finds in the
    cache is the "initializing" sentinel. *)
Theorem summaries_wait_for_model (acts : list Action) (s : State) :
  play acts initial_state = Some s ->
  is_model_ready s = existsb is_loaded acts /\
  (existsb is_loaded acts = false ->
   Forall (fun n => summary n = MSG_INITIALIZING) (current_snapshot s)).
Proof.
  intros Hp. split.
  - now rewrite (play_ready _ _ _ Hp).
  - intros Hl.
    destruct (play_initializing acts initial_state s Hp Hl) as [_ Hall].
    + split; [reflexivity|]. repeat constructor.
    + unfold current_snapshot, deref. apply Forall_nth_default; [assumption | constructor].
Qed.

Lemma summaries_wait_for_model_witness :
  is_model_ready (Demo.after Demo.failed_load initial_state) = false /\
  length (current_snapshot (Demo.after Demo.failed_load initial_state)) = 6 /\
  Forall (fun n => summary n = MSG_INITIALIZING)
         (current_snapshot (Demo.after Demo.failed_load initial_state)).
Proof.
  split; [reflexivity|]. split; [reflexivity|].
  refine (proj2 (summaries_wait_for_model Demo.failed_load _ _) _).
  - vm_compute. reflexivity.
  - reflexivity.
Defined.

(** ** The registry *)

Lemma dict_set_keys (n : string) (c : Outlet) (d : Registry) :
  map fst (dict_set n c d)
  = if str_in n (map fst d) then map fst d else map fst d ++ [n].
Proof.
  induction d as [|[k v] d IH]; cbn; [reflexivity|].
  rewrite (String.eqb_sym n k). destruct (String.eqb k n); cbn; [reflexivity|].
  rewrite IH. unfold str_in. now destruct (existsb (String.eqb n) (map fst d)).
Qed.

Lemma dict_set_NoDup (n : string) (c : Outlet) (d : Registry) :
  NoDup (map fst d) -> NoDup (map fst (dict_set n c d)).
Proof.
  intros H. rewrite dict_set_keys. destruct (str_in n (map fst d)) eqn:E; [assumption|].
  apply NoDup_app; [assumption | repeat constructor; intros [] |].
  intros x Hx [<-|[]]. apply str_in_In in Hx. congruence.
Qed.

Lemma dict_del_incl (n : string) (d : Registry) (x : string) :
  In x (map fst (dict_del n d)) -> In x (map fst d).
Proof.
  induction d as [|[k v] d IH]; cbn; [auto|].
  destruct (String.eqb k n); cbn; [auto|]. intros [?|?]; auto.
Qed.

Lemma dict_del_NoDup (n : string) (d : Registry) :
  NoDup (map fst d) -> NoDup (map fst (dict_del n d)).
Proof.
  induction d as [|[k v] d IH]; cbn; [auto|].
  intros H. inversion H as [|? ? Hk Hd]; subst.
  destruct (String.eqb k n); cbn; [assumption|].
  constructor; [|now apply IH]. intros Hin. apply Hk. now apply dict_del_incl in Hin.
Qed.

Lemma dict_get_None (n : string) (d : Registry) :
  dict_get n d = None <-> ~ In n (map fst d).
Proof.
  induction d as [|[k v] d IH]; cbn; [tauto|].
  destruct (String.eqb k n) eqn:E.
  - apply String.eqb_eq in E. split; [discriminate | intros H; exfalso; apply H; now left].
  - apply String.eqb_neq in E. rewrite IH. tauto.
Qed.

Lemma dict_get_set_same (n : string) (c : Outlet) (d : Registry) :
  dict_get n (dict_set n c d) = Some c.
Proof.
  induction d as [|[k v] d IH]; cbn; [now rewrite String.eqb_refl|].
  destruct (String.eqb k n) eqn:E; cbn; rewrite E; auto.
Qed.

Lemma dict_get_set_other (n m : string) (c : Outlet) (d : Registry) :
  m <> n -> dict_get m (dict_set n c d) = dict_get m d.
Proof.
  intros Hne. induction d as [|[k v] d IH]; cbn.
  - apply String.eqb_neq in Hne. now rewrite String.eqb_sym, Hne.
  - destruct (String.eqb k n) eqn:E; cbn.
    + apply String.eqb_eq in E. subst k.
      replace (String.eqb n m) with false; [reflexivity|].
      symmetry. apply String.eqb_neq. congruence.
    + now rewrite IH.
Qed.

Lemma dict_get_del_same (n : string) (d : Registry) :
  NoDup (map fst d) -> dict_get n (dict_del n d) = None.
Proof.
  induction d as [|[k v] d IH]; cbn; [reflexivity|].
  intros H. inversion H as [|? ? Hk Hd]; subst.
  destruct (String.eqb k n) eqn:E; cbn.
  - apply String.eqb_eq in E. subst k. now apply dict_get_None.
  - rewrite E. now apply IH.
Qed.

Lemma dict_get_del_other (n m : string) (d : Registry) :
  m <> n -> dict_get m (dict_del n d) = dict_get m d.
Proof.
  intros Hne. induction d as [|[k v] d IH]; cbn; [reflexivity|].
  destruct (String.eqb k n) eqn:E; cbn.
  - apply String.eqb_eq in E. subst k.
    replace (String.eqb n m) with false; [reflexivity|].
    symmetry. apply String.eqb_neq. congruence.
  - now rewrite IH.
Qed.

Lemma dict_del_absent (n : string) (d : Registry) :
  ~ In n (map fst d) -> dict_del n d = d.
Proof.
  induction d as [|[k v] d IH]; cbn; [reflexivity|].
  intros H. destruct (String.eqb k n) eqn:E.
  - apply String.eqb_eq in E. exfalso. apply H. now left.
  - f_equal. apply IH. tauto.
Qed.

Lemma dict_del_set_new (n : string) (c : Outlet) (d : Registry) :
  ~ In n (map fst d) -> dict_del n (dict_set n c d) = d.
Proof.
  induction d as [|[k v] d IH]; cbn.
  - now rewrite String.eqb_refl.
  - intros H. destruct (String.eqb k n) eqn:E.
    + apply String.eqb_eq in E. exfalso. apply H. now left.
    + cbn. rewrite E. f_equal. apply IH. tauto.
Qed.

Lemma add_paper_grid (name type pol eco nat intl_url : string) (s : State) :
  TARGET_GRID (add_paper name type pol eco nat intl_url s)
  = dict_set name (new_entry type pol eco nat intl_url) (TARGET_GRID s).
Proof.
  unfold add_paper, new_entry. now destruct (String.eqb type "national").
Qed.

Lemma exec_grid (ev : Event) (s s' : State) :
  exec ev s = Some s' ->
  TARGET_GRID s' = TARGET_GRID s \/
  (exists n c, TARGET_GRID s' = dict_set n c (TARGET_GRID s)) \/
  (exists n, TARGET_GRID s' = dict_del n (TARGET_GRID s)).
Proof.
  intros H.
  exec_cases ev s H; state_simpl; try (now left).
  - right. left. rewrite add_paper_grid. eauto.
  - right. right. eauto.
Qed.

Lemma serve_grid (r : Request) (s : State) :
  TARGET_GRID (serve r s) = TARGET_GRID s.
Proof.
  destruct r; cbn; try reflexivity.
  unfold auto_archive_log. now destruct (current_snapshot s).
Qed.

Lemma exec_grid_NoDup (ev : Event) (s s' : State) :
  exec ev s = Some s' ->
  NoDup (map fst (TARGET_GRID s)) -> NoDup (map fst (TARGET_GRID s')).
Proof.
  intros H Hn. destruct (exec_grid _ _ _ H) as [->|[[n [c ->]]|[n ->]]];
    [assumption | now apply dict_set_NoDup | now apply dict_del_NoDup].
Qed.

Lemma play_grid_NoDup (acts : list Action) (s : State) :
  play acts initial_state = Some s -> NoDup (map fst (TARGET_GRID s)).
Proof.
  intros H.
  apply (play_invariant (fun st => NoDup (map fst (TARGET_GRID st)))
           exec_grid_NoDup
           (fun r st Hst => eq_ind_r (fun g => NoDup (map fst g)) Hst (serve_grid r st))
           acts initial_state s H).
  cbn. repeat constructor. intros [].
Qed.

(** X5: after [add_paper] the name is bound to the new entry (national
    with the three sections only for the type ["national"], otherwise
    international with one section) and every other outlet is as it
    was; a name already present keeps its place, a new one goes last. *)
Theorem add_paper_registers (name type pol eco nat intl_url : string) (s : State) :
  let s' := add_paper name type pol eco nat intl_url s in
  dict_get name (TARGET_GRID s') = Some (new_entry type pol eco nat intl_url) /\
  (forall other, other <> name ->
     dict_get other (TARGET_GRID s') = dict_get other (TARGET_GRID s)) /\
  (In name (map fst (TARGET_GRID s)) ->
     map fst (TARGET_GRID s') = map fst (TARGET_GRID s)) /\
  (~ In name (map fst (TARGET_GRID s)) ->
     map fst (TARGET_GRID s') = map fst (TARGET_GRID s) ++ [name]).
Proof.
  cbn zeta. rewrite add_paper_grid. split; [apply dict_get_set_same|].
  split; [intros other Hne; now apply dict_get_set_other|].
  rewrite dict_set_keys. split; intros H.
  - apply str_in_In in H. now rewrite H.
  - destruct (str_in name (map fst (TARGET_GRID s))) eqn:E; [|reflexivity].
    apply str_in_In in E. contradiction.
Qed.

Lemma add_paper_registers_witness :
  map fst (TARGET_GRID
             (add_paper "Prothom Alo" "National" EmptyString EmptyString
                        EmptyString "https://news.example/world" initial_state))
  = ["Prothom Alo"] /\
  dict_get "Prothom Alo"
    (TARGET_GRID
       (add_paper "Prothom Alo" "National" EmptyString EmptyString
                  EmptyString "https://news.example/world" initial_state))
  = Some {| otype := "international";
            paths := [("International", "https://news.example/world")] |}.
Proof.
  split.
  - refine (proj1 (proj2 (proj2 (add_paper_registers "Prothom Alo" "National"
                                   EmptyString EmptyString EmptyString
                                   "https://news.example/world" initial_state)))
                  _).
    left. reflexivity.
  - exact (proj1 (add_paper_registers "Prothom Alo" "National"
                    EmptyString EmptyString EmptyString
                    "https://news.example/world" initial_state)).
Defined.

(** X6: in any state of the process, [delete_paper] unbinds the name,
    leaves every other outlet as it was, changes nothing when the name
    is not there, and keeps the names of the registry distinct. *)
Theorem delete_paper_removes (acts : list Action) (s : State) (name : string) :
  play acts initial_state = Some s ->
  let s' := delete_paper name s in
  dict_get name (TARGET_GRID s') = None /\
  (forall other, other <> name ->
     dict_get other (TARGET_GRID s') = dict_get other (TARGET_GRID s)) /\
  (dict_get name (TARGET_GRID s) = None -> TARGET_GRID s' = TARGET_GRID s) /\
  NoDup (map fst (TARGET_GRID s')).
Proof.
  intros Hp. pose proof (play_grid_NoDup _ _ Hp) as Hn. cbn.
  split; [now apply dict_get_del_same|].
  split; [intros other Hne; now apply dict_get_del_other|].
  split; [|now apply dict_del_NoDup].
  intros H. apply dict_del_absent. now apply dict_get_None.
Qed.

Lemma delete_paper_removes_witness :
  dict_get "BBC"
    (TARGET_GRID
       (delete_paper "BBC"
          (Demo.after [Core (AddPaper "BBC" "international" EmptyString EmptyString
                                       EmptyString "https://news.example/world")]
                      initial_state))) = None.
Proof.
  refine (proj1 (delete_paper_removes
                   [Core (AddPaper "BBC" "international" EmptyString EmptyString
                                   EmptyString "https://news.example/world")]
                   _ "BBC" _)).
  reflexivity.
Defined.

(** X7: adding an outlet under a name that is not in the registry and
    deleting it again gives the registry back. *)
Theorem add_then_delete (name type pol eco nat intl_url : string) (s : State) :
  dict_get name (TARGET_GRID s) = None ->
  TARGET_GRID (delete_paper name (add_paper name type pol eco nat intl_url s))
  = TARGET_GRID s.
Proof.
  intros H. unfold delete_paper. state_simpl. rewrite add_paper_grid.
  apply dict_del_set_new. now apply dict_get_None.
Qed.

Lemma add_then_delete_witness :
  TARGET_GRID
    (delete_paper "BBC"
       (add_paper "BBC" "international" EmptyString EmptyString EmptyString
                  "https://news.example/world" initial_state))
  = TARGET_GRID initial_state.
Proof. apply add_then_delete. reflexivity. Defined.

(** ** The cycle ends *)

Lemma sections_of_cons (n : string) (cfg : Outlet) (R : Registry) :
  sections_of ((n, cfg) :: R) = length (paths cfg) + sections_of R.
Proof. reflexivity. Qed.

Lemma firstn_3_length {A} (l : list A) : length (firstn 3 l) <= 3.
Proof. rewrite length_firstn. lia. Qed.

(** inside the loops a step of the worker is always possible *)
Lemma worker_never_blocks (w : World) (t : bool) (s : State) :
  in_loops (pc s) -> exists s', worker_step w t s = Some s'.
Proof.
  unfold worker_step.
  destruct (pc s) as [| |[|[? ?] ?]|? ? [|[? ?] ?] ?|? ? ? [|? ?] ? ?| | | | |];
    cbn; try contradiction; intros _;
    repeat match goal with
           | |- context [match ?x with _ => _ end] => destruct x
           end; eauto.
Qed.

(** a step inside the loops uses up the budget *)
Lemma exec_steps_left (ev : Event) (s s' : State) :
  exec ev s = Some s' -> in_loops (pc s) -> in_loops (pc s') ->
  steps_left (pc s') + (if is_worker ev then 1 else 0) <= steps_left (pc s).
Proof.
  intros H Hin Hin'.
  exec_cases ev s H;
    try (unfold add_paper; destruct (String.eqb _ _));
    state_simpl; cbn [is_worker];
    repeat match goal with
           | Hp : pc s = _ |- _ => rewrite Hp in *; clear Hp
           end;
    cbn [in_loops] in *; try contradiction;
    cbn [steps_left]; rewrite ?sections_of_cons; cbn [length];
    try lia.
  repeat match goal with
         | |- context [match ?l with [] => _ | _ :: _ => _ end] => destruct l
         end; cbn [length]; lia.
Qed.

Lemma exec_leaves_loops (ev : Event) (s s' : State) :
  exec ev s = Some s' -> in_loops (pc s) ->
  in_loops (pc s') \/ pc s' = AtPublish \/ pc s' = Crashed.
Proof.
  intros H Hin.
  exec_cases ev s H;
    try (unfold add_paper; destruct (String.eqb _ _));
    state_simpl;
    repeat match goal with
           | Hp : pc s = _ |- _ => rewrite Hp in *; clear Hp
           end;
    cbn [in_loops] in *; try contradiction; auto.
Qed.

(** X8: inside the loops of lines 136-148 a step of the worker is
    always possible and leads on in the loops, to the assignment of
    line 150 or to a crash; and however the handlers interleave, the
    worker takes at most [steps_left] steps (1, plus 2 per outlet and
    5 per section still to visit) before it leaves the loops; a step
    is a statement, a call of [universal_intercept] or a pass of the
    loop over the items, whose calls to the outside return. *)
Theorem cycle_terminates (evs : list Event) (s : State) (seen : list State) :
  visits evs s = Some seen ->
  Forall (fun st => in_loops (pc st)) seen ->
  count_worker evs <= steps_left (pc s) /\
  forall st w t, In st seen ->
    exists st', exec (Worker w t) st = Some st' /\
                (in_loops (pc st') \/ pc st' = AtPublish \/ pc st' = Crashed).
Proof.
  intros Hv Hall. split.
  - revert s seen Hv Hall. induction evs as [|ev evs IH]; intros s seen; cbn [visits].
    + intros _ _. cbn. lia.
    + destruct (exec ev s) as [s1|] eqn:He; [|discriminate].
      destruct (visits evs s1) as [l|] eqn:Hv; [|discriminate].
      intros [= <-] Hall. inversion Hall as [|? ? H0 Hl]; subst.
      destruct (visits_head _ _ _ Hv) as [rest ->].
      inversion Hl as [|? ? H1 _]; subst.
      pose proof (exec_steps_left _ _ _ He H0 H1).
      specialize (IH s1 _ Hv Hl).
      unfold count_worker in *. cbn [filter]. destruct (is_worker ev); cbn [length]; lia.
  - intros st w t Hin. rewrite Forall_forall in Hall.
    destruct (worker_never_blocks w t st (Hall st Hin)) as [st' Hst'].
    exists st'. split; [exact Hst'|].
    apply (exec_leaves_loops (Worker w t) st); [exact Hst' | now apply Hall].
Qed.

Lemma cycle_terminates_witness :
  let s := Lab.state_after (repeat (Worker Lab.newsroom false) 2) initial_state in
  steps_left (pc s) = 18 /\
  count_worker (FetchNews [] [] :: repeat (Worker Lab.newsroom false) 14) <= 18.
Proof.
  intros s. split; [reflexivity|].
  refine (proj1 (cycle_terminates
                   (FetchNews [] [] :: repeat (Worker Lab.newsroom false) 14) s
                   (match visits (FetchNews [] [] :: repeat (Worker Lab.newsroom false) 14) s with
                    | Some seen => seen
                    | None => []
                    end) _ _)).
  - vm_compute. reflexivity.
  - vm_compute. repeat constructor.
Defined.

Lemma heap_append_nth_length (a : Ref) (x : IntelItem) (h : list (list IntelItem)) :
  length (nth a (heap_append a x h) []) <= S (length (nth a h [])).
Proof.
  revert a. induction h as [|l h IH]; intros [|a]; cbn; auto.
  rewrite length_app. cbn. lia.
Qed.

Lemma exec_cycle_inv (R : Registry) (ev : Event) (s s' : State) :
  exec ev s = Some s' -> pc s <> AtCopy -> cycle_inv R s -> cycle_inv R s'.
Proof.
  unfold cycle_inv, buffer, deref. intros H Hpc (Hbuf & Hroom & Hent & Hsec & Hits).
  exec_cases ev s H;
    try (unfold add_paper; destruct (String.eqb _ _));
    state_simpl;
    repeat match goal with
           | Hp : pc s = _ |- _ => rewrite Hp in *; clear Hp
           end;
    cbn [room_left pending_entries pending_sections current_sections
         map fst length] in *;
    rewrite ?sections_of_cons in *;
    try contradiction;
    try (repeat split; assumption).
  - rewrite nth_middle. repeat split; try constructor; cbn; try lia;
      apply incl_nil_l.
  - repeat split; try assumption; try lia. apply incl_refl.
  - repeat split; try assumption; try lia; try apply incl_nil_l.
    intros x Hx. apply Hent. now right.
  - assert (forall (A : Type) (h : list A),
              length match h with
                     | [] => []
                     | a :: l =>
                         a :: match l with
                              | [] => []
                              | a0 :: l0 => a0 :: match l0 with
                                                  | [] => []
                                                  | a1 :: _ => [a1]
                                                  end
                              end
                     end <= 3) as Hthree
      by (intros A [|? [|? [|? ?]]]; cbn; lia).
    match goal with |- context [length (match ?h with [] => _ | _ :: _ => _ end)] =>
      specialize (Hthree _ h) end.
    repeat split; try assumption; try lia.
  - repeat split; try assumption; try lia; apply incl_nil_l.
  - repeat split; try assumption; try lia.
    intros x Hx. apply Hsec. now right.
  - match type of Hent with
    | incl ((?nm, ?cf) :: _) _ =>
        assert (In (nm, cf) R) as Hin by (apply Hent; now left);
        match type of Hsec with
        | incl (?sec :: _) _ =>
            assert (In sec (map fst (paths cf))) as Hs by (apply Hsec; now left)
        end
    end.
    split; [|split; [|repeat split; try assumption; try lia]].
    + apply heap_append_Forall; [assumption|].
      eexists. cbn. eauto.
    + match goal with |- context [heap_append ?a ?x ?h] =>
        pose proof (heap_append_nth_length a x h) end. lia.
  - repeat split; try assumption; try lia; apply incl_nil_l.
  - repeat split; try assumption; try lia; apply incl_nil_l.
Qed.


Lemma visits_cycle_inv (R : Registry) (evs : list Event) (s : State) (seen : list State) :
  visits evs s = Some seen ->
  Forall (fun st => pc st <> AtCopy) seen ->
  cycle_inv R s -> Forall (cycle_inv R) seen.
Proof.
  revert s seen. induction evs as [|ev evs IH]; intros s seen; cbn.
  - intros [= <-] _ Hw. now constructor.
  - destruct (exec ev s) as [s1|] eqn:He; [|discriminate].
    destruct (visits evs s1) as [l|] eqn:Hv; [|discriminate].
    intros [= <-] Hpc Hw. inversion Hpc as [|? ? Hpc0 Hpcl]; subst.
    constructor; [assumption|].
    apply (IH s1); [assumption | assumption |].
    now apply (exec_cycle_inv R ev s).
Qed.

(** From the copy of the registry to the assignment of line 150. *)
Lemma cycle_inv_at_publish (before evs : list Event)
    (s0 s1 s2 s3 : State) (seen : list State) (w0 w2 : World) (t0 t2 : bool) :
  run before initial_state = Some s0 ->
  pc s0 = AtCopy ->
  exec (Worker w0 t0) s0 = Some s1 ->
  visits evs s1 = Some seen ->
  Forall (fun st => pc st <> AtCopy) seen ->
  In s2 seen ->
  pc s2 = AtPublish ->
  exec (Worker w2 t2) s2 = Some s3 ->
  cycle_inv (TARGET_GRID s0) s2 /\ current_snapshot s3 = buffer s2.
Proof.
  intros Hreach Hpc0 Hcopy Hv Hnocopy Hin Hpc2 Hpub.
  assert (buffer s0 = []) as Hfresh.
  { apply (run_fresh_at_copy before initial_state s0 Hreach); [|assumption].
    intros Hp. discriminate Hp. }
  assert (cycle_inv (TARGET_GRID s0) s1) as Hw1.
  { cbn in Hcopy. unfold worker_step in Hcopy. rewrite Hpc0 in Hcopy.
    injection Hcopy as <-. unfold cycle_inv.
    change (buffer (set_pc (InOutlets (TARGET_GRID s0))
                      (set_targets (TARGET_GRID s0) s0))) with (buffer s0).
    rewrite Hfresh. cbn. repeat split; try constructor; try lia;
      try apply incl_refl. }
  pose proof (visits_cycle_inv _ _ _ _ Hv Hnocopy Hw1) as Hall.
  rewrite Forall_forall in Hall. split; [now apply Hall|].
  cbn in Hpub. unfold worker_step in Hpub. rewrite Hpc2 in Hpub.
  now injection Hpub as <-.
Qed.

(** X9: a cycle publishes at most three items per section of the
    registry as it was copied at line 134. *)
Theorem snapshot_volume (before evs : list Event)
    (s0 s1 s2 s3 : State) (seen : list State) (w0 w2 : World) (t0 t2 : bool) :
  run before initial_state = Some s0 ->
  pc s0 = AtCopy ->
  exec (Worker w0 t0) s0 = Some s1 ->
  visits evs s1 = Some seen ->
  Forall (fun st => pc st <> AtCopy) seen ->
  In s2 seen ->
  pc s2 = AtPublish ->
  exec (Worker w2 t2) s2 = Some s3 ->
  length (current_snapshot s3) <= 3 * sections_of (TARGET_GRID s0).
Proof.
  intros H1 H2 H3 H4 H5 H6 H7 H8.
  destruct (cycle_inv_at_publish _ _ _ _ _ _ _ _ _ _ _ H1 H2 H3 H4 H5 H6 H7 H8)
    as [(_ & Hroom & _) ->].
  lia.
Qed.

(** X10: every item a cycle publishes carries the name, the type and
    one of the sections of a single entry of the registry as it was
    copied at line 134. *)
Theorem snapshot_provenance (before evs : list Event)
    (s0 s1 s2 s3 : State) (seen : list State) (w0 w2 : World) (t0 t2 : bool) :
  run before initial_state = Some s0 ->
  pc s0 = AtCopy ->
  exec (Worker w0 t0) s0 = Some s1 ->
  visits evs s1 = Some seen ->
  Forall (fun st => pc st <> AtCopy) seen ->
  In s2 seen ->
  pc s2 = AtPublish ->
  exec (Worker w2 t2) s2 = Some s3 ->
  Forall (fun n => exists cfg,
            In (source n, cfg) (TARGET_GRID s0) /\
            item_type n = otype cfg /\
            In (sector n) (map fst (paths cfg)))
         (current_snapshot s3).
Proof.
  intros H1 H2 H3 H4 H5 H6 H7 H8.
  destruct (cycle_inv_at_publish _ _ _ _ _ _ _ _ _ _ _ H1 H2 H3 H4 H5 H6 H7 H8)
    as [(Hbuf & _) ->].
  exact Hbuf.
Qed.

Lemma snapshot_provenance_witness :
  let s0 := Lab.state_after [Worker Lab.newsroom false] initial_state in
  let s3 := Lab.state_after
              (Worker Lab.newsroom false :: Lab.edits_in_flight
               ++ [Worker Lab.newsroom false]) s0 in
  map sector (current_snapshot s3)
  = ["Politics"; "Politics"; "Economy"; "Economy"; "National"; "National"] /\
  Forall (fun n => exists cfg,
            In (source n, cfg) (TARGET_GRID s0) /\
            item_type n = otype cfg /\
            In (sector n) (map fst (paths cfg)))
         (current_snapshot s3).
Proof.
  intros s0 s3. split; [reflexivity|].
  refine (snapshot_provenance
            [Worker Lab.newsroom false] Lab.edits_in_flight
            s0 (Lab.state_after [Worker Lab.newsroom false] s0)
            (Lab.state_after (Worker Lab.newsroom false :: Lab.edits_in_flight) s0)
            s3
            (match visits Lab.edits_in_flight
                     (Lab.state_after [Worker Lab.newsroom false] s0) with
             | Some seen => seen
             | None => []
             end)
            Lab.newsroom Lab.newsroom false false _ _ _ _ _ _ _ _).
  - reflexivity.
  - reflexivity.
  - reflexivity.
  - vm_compute. reflexivity.
  - vm_compute. repeat (constructor; [discriminate|]). constructor.
  - vm_compute. repeat (first [left; reflexivity | right]).
  - reflexivity.
  - vm_compute. reflexivity.
Defined.

Lemma snapshot_volume_witness :
  let s0 := Lab.state_after [Worker Lab.newsroom false] initial_state in
  let s3 := Lab.state_after
              (Worker Lab.newsroom false :: Lab.edits_in_flight
               ++ [Worker Lab.newsroom false]) s0 in
  sections_of (TARGET_GRID s0) = 3 /\
  length (current_snapshot s3) <= 3 * sections_of (TARGET_GRID s0).
Proof.
  intros s0 s3. split; [reflexivity|].
  refine (snapshot_volume
            [Worker Lab.newsroom false] Lab.edits_in_flight
            s0 (Lab.state_after [Worker Lab.newsroom false] s0)
            (Lab.state_after (Worker Lab.newsroom false :: Lab.edits_in_flight) s0)
            s3
            (match visits Lab.edits_in_flight
                     (Lab.state_after [Worker Lab.newsroom false] s0) with
             | Some seen => seen
             | None => []
             end)
            Lab.newsroom Lab.newsroom false false _ _ _ _ _ _ _ _).
  - reflexivity.
  - reflexivity.
  - reflexivity.
  - vm_compute. reflexivity.
  - vm_compute. repeat (constructor; [discriminate|]). constructor.
  - vm_compute. repeat (first [left; reflexivity | right]).
  - reflexivity.
  - vm_compute. reflexivity.
Defined.

Lemma add_log_last (w : World) (msg : string) (l : list string) :
  last (add_log w msg l) EmptyString = "[" +++ now_hms w +++ "] " +++ msg.
Proof.
  unfold add_log. rewrite length_app. cbn [length].
  destruct (30 <? length l + 1) eqn:Hfull; [|apply last_last].
  apply Nat.ltb_lt in Hfull. destruct l as [|x l]; [cbn in Hfull; lia|].
  cbn [app tl]. apply last_last.
Qed.

(** ** Who writes what *)

(** X11: a step of the worker never changes the registry, the sync
    interval or the model flag, and changes the trigger only at line
    155; a handler never changes the list objects, the binding of
    [INTEL_CACHE] or the locals of the worker. *)
Theorem single_writers (ev : Event) (s s' : State) :
  exec ev s = Some s' ->
  (is_worker ev = true ->
   TARGET_GRID s' = TARGET_GRID s /\
   SYNC_INTERVAL_MINS s' = SYNC_INTERVAL_MINS s /\
   is_model_ready s' = is_model_ready s /\
   (trigger_sync_now s' <> trigger_sync_now s -> pc s = AtClear)) /\
  (is_worker ev = false ->
   heap s' = heap s /\ INTEL_CACHE s' = INTEL_CACHE s /\
   temp_cache s' = temp_cache s /\ current_targets s' = current_targets s /\
   pc s' = pc s).
Proof.
  intros H.
  exec_cases ev s H;
    try (unfold add_paper; destruct (String.eqb _ _));
    state_simpl; cbn [is_worker];
    (split; [intros Hw | intros Hw]); try discriminate;
    repeat split; try reflexivity; try assumption; try congruence.
Qed.

Lemma single_writers_witness :
  heap (force_sync Lab.offline initial_state) = heap initial_state /\
  INTEL_CACHE (force_sync Lab.offline initial_state) = INTEL_CACHE initial_state /\
  temp_cache (force_sync Lab.offline initial_state) = temp_cache initial_state /\
  current_targets (force_sync Lab.offline initial_state)
  = current_targets initial_state /\
  pc (force_sync Lab.offline initial_state) = pc initial_state.
Proof.
  exact (proj2 (single_writers (ForceSync Lab.offline) initial_state _ eq_refl)
               eq_refl).
Defined.

(** ** A crash of the worker *)

Lemma exec_crashed (ev : Event) (s s' : State) :
  exec ev s = Some s' -> pc s = Crashed ->
  pc s' = Crashed /\ current_snapshot s' = current_snapshot s.
Proof.
  intros H Hc. unfold current_snapshot, deref.
  exec_cases ev s H;
    try (unfold add_paper; destruct (String.eqb _ _));
    state_simpl; try congruence; split; try assumption; reflexivity.
Qed.

Lemma serve_only_logs (r : Request) (s : State) :
  serve r s = s \/ exists w msg, serve r s = log w msg s.
Proof.
  destruct r; cbn; try (right; eauto; fail).
  - right. unfold update_archive_timer. eauto.
  - right. unfold generate_intel_log. eauto.
  - unfold auto_archive_log. destruct (current_snapshot s); [now left | right; eauto].
Qed.

Lemma serve_crashed (r : Request) (s : State) :
  pc (serve r s) = pc s /\ current_snapshot (serve r s) = current_snapshot s.
Proof.
  destruct (serve_only_logs r s) as [->|[w [msg ->]]]; split; reflexivity.
Qed.

Lemma play_crashed (acts : list Action) (s s' : State) :
  play acts s = Some s' -> pc s = Crashed ->
  pc s' = Crashed /\ current_snapshot s' = current_snapshot s.
Proof.
  revert s. induction acts as [|a acts IH]; intros s; cbn [play].
  - intros [= <-] Hc. now split.
  - destruct a as [ev|r]; cbn [act].
    + destruct (exec ev s) as [s1|] eqn:He; [|discriminate].
      intros Hp Hc. destruct (exec_crashed _ _ _ He Hc) as [Hc1 Hs1].
      destruct (IH _ Hp Hc1) as [? ?]. split; congruence.
    + intros Hp Hc. destruct (serve_crashed r s) as [Hc1 Hs1].
      destruct (IH _ Hp) as [? ?]; [congruence|]. split; congruence.
Qed.

(** X12: when the worker visits a section whose URL is of the API
    outlet and is refused by [urlparse], the exception ends the thread:
    from then on no step of the worker is possible and, whatever the
    handlers do, a reader sees the snapshot published before. *)
Theorem unparsable_url_halts_worker (w : World) (t : bool) (s : State)
    (name sector url : string) (cfg : Outlet)
    (todo_sections : list (string * string)) (todo : Registry) (e : exn) :
  pc s = InSections name cfg ((sector, url) :: todo_sections) todo ->
  url <> EmptyString ->
  PyStr.contains "prothomalo" url = true ->
  urlparse w url = Raise e ->
  exists s',
    exec (Worker w t) s = Some s' /\ pc s' = Crashed /\
    current_snapshot s' = current_snapshot s /\
    forall acts s'',
      play acts s' = Some s'' ->
      pc s'' = Crashed /\ current_snapshot s'' = current_snapshot s /\
      forall w' t', exec (Worker w' t') s'' = None.
Proof.
  intros Hpc Hne Hc Hp. cbn [exec]. unfold worker_step. rewrite Hpc.
  unfold universal_intercept. apply String.eqb_neq in Hne. rewrite Hne, Hc, Hp.
  eexists. split; [reflexivity|]. split; [reflexivity|]. split; [reflexivity|].
  intros acts s'' Hplay.
  destruct (play_crashed _ _ _ Hplay eq_refl) as [Hc'' Hs''].
  split; [assumption|]. split; [exact Hs''|].
  intros w' t'. cbn [exec]. unfold worker_step. now rewrite Hc''.
Qed.

Lemma unparsable_url_halts_worker_witness :
  exists s',
    exec (Worker Lab.offline false) (Lab.state_after Demo.bad_outlet initial_state)
    = Some s' /\ pc s' = Crashed /\
    current_snapshot s'
    = current_snapshot (Lab.state_after Demo.bad_outlet initial_state) /\
    forall acts s'',
      play acts s' = Some s'' ->
      pc s'' = Crashed /\
      current_snapshot s''
      = current_snapshot (Lab.state_after Demo.bad_outlet initial_state) /\
      forall w' t', exec (Worker w' t') s'' = None.
Proof.
  refine (unparsable_url_halts_worker Lab.offline false
            (Lab.state_after Demo.bad_outlet initial_state)
            "Mirror" "Politics" "http://[prothomalo"
            {| otype := "national";
               paths := [("Politics", "http://[prothomalo");
                         ("Economy", EmptyString); ("National", EmptyString)] |}
            [("Economy", EmptyString); ("National", EmptyString)] []
            ValueError _ _ _ _).
  - reflexivity.
  - discriminate.
  - reflexivity.
  - reflexivity.
Defined.

(** ** An empty registry *)

(** X13: with an empty registry at the copy of line 134 the cycle
    takes four steps to the wait, publishes the empty snapshot and logs
    that 0 packets are ready. *)
Theorem empty_registry_cycle (before : list Event) (s0 : State)
    (w1 w2 w3 w4 : World) (t1 t2 t3 t4 : bool) :
  run before initial_state = Some s0 ->
  pc s0 = AtCopy ->
  TARGET_GRID s0 = [] ->
  exists s4,
    run [Worker w1 t1; Worker w2 t2; Worker w3 t3; Worker w4 t4] s0 = Some s4 /\
    pc s4 = AtWait /\
    current_snapshot s4 = [] /\
    last (SYSTEM_LOGS s4) EmptyString
    = "[" +++ now_hms w4 +++ "] SYNC_ENGINE: CACHE REFRESHED. 0 PACKETS READY.".
Proof.
  intros Hreach Hpc Hgrid.
  assert (buffer s0 = []) as Hfresh.
  { apply (run_fresh_at_copy before initial_state s0 Hreach); [|assumption].
    intros Hp. discriminate Hp. }
  cbn [run exec]. unfold worker_step at 1. rewrite Hpc, Hgrid.
  unfold worker_step at 1. cbn [pc set_pc].
  unfold worker_step at 1. cbn [pc set_pc].
  unfold worker_step at 1. cbn [pc set_pc].
  eexists. split; [reflexivity|].
  split; [reflexivity|].
  split.
  - exact Hfresh.
  - unfold log. state_simpl. rewrite add_log_last.
    unfold current_snapshot, deref. state_simpl.
    change (nth (temp_cache s0) (heap s0) []) with (buffer s0).
    now rewrite Hfresh.
Qed.

Lemma empty_registry_cycle_witness :
  exists s4,
    run (repeat (Worker Lab.offline false) 4)
        (Lab.state_after [DeletePaper "Prothom Alo"; Worker Lab.offline false]
                         initial_state) = Some s4 /\
    pc s4 = AtWait /\
    current_snapshot s4 = [] /\
    last (SYSTEM_LOGS s4) EmptyString
    = "[12:00:00] SYNC_ENGINE: CACHE REFRESHED. 0 PACKETS READY.".
Proof.
  refine (empty_registry_cycle [DeletePaper "Prothom Alo"; Worker Lab.offline false]
            _ Lab.offline Lab.offline Lab.offline Lab.offline false false false false
            _ _ _); reflexivity.
Defined.

(** ** The cost of a summary *)

(** X14: one call of [get_deep_summary] makes no call at all when the
    model is not ready, and otherwise one fetch of the link followed by
    at most one run of the model, on a text of 200 to 2500 characters. *)
Theorem summary_cost (w : World) (is_model_ready : bool) (url : string) :
  let calls := snd (get_deep_summary w is_model_ready url) in
  (is_model_ready = false /\ calls = []) \/
  (is_model_ready = true /\
   (calls = [HttpGet url] \/
    exists input,
      calls = [HttpGet url; Infer input] /\
      200 <= String.length input <= 2500)).
Proof.
  unfold get_deep_summary, deep_summary_body.
  destruct is_model_ready; cbn [negb]; [right | now left].
  split; [reflexivity|].
  destruct (get_paragraphs w url) as [ps|e]; [|now left].
  destruct (String.length (article_text ps) <? 200) eqn:Hlt; [now left|].
  apply Nat.ltb_ge in Hlt. right.
  exists (PyStr.take 2500 (article_text ps)). split.
  - now destruct (summarizer w (PyStr.take 2500 (article_text ps))).
  - rewrite take_length. lia.
Qed.

(** ** The query *)

(** X15: selecting more sources and more sectors never removes an item
    from the answer of [fetch_news]; with no source selected the answer
    has no item; the answer carries the log as it is. *)
Theorem fetch_news_monotone (s : State) (srcs srcs' secs secs' : list string) :
  incl srcs srcs' -> incl secs secs' ->
  incl (news (fetch_news s srcs secs)) (news (fetch_news s srcs' secs')) /\
  news (fetch_news s [] secs) = [] /\
  logs (fetch_news s srcs secs) = SYSTEM_LOGS s.
Proof.
  intros Hs Hc. unfold fetch_news. cbn [news logs]. split; [|split; [|reflexivity]].
  - intros n Hn. apply fetch_news_filter_In in Hn. apply fetch_news_filter_In.
    destruct Hn as (? & ? & [?|?]); auto.
  - unfold fetch_news_filter. induction (current_snapshot s) as [|n l IH]; cbn; auto.
Qed.

Lemma fetch_news_monotone_witness :
  incl (news (fetch_news (Lab.state_after Lab.first_cycle initial_state)
                         ["Prothom Alo"] ["Politics"]))
       (news (fetch_news (Lab.state_after Lab.first_cycle initial_state)
                         ["Prothom Alo"; "BBC"] ["Economy"; "Politics"])).
Proof.
  refine (proj1 (fetch_news_monotone _ ["Prothom Alo"] ["Prothom Alo"; "BBC"]
                   ["Politics"] ["Economy"; "Politics"] _ _)).
  - intros x [<-|[]]. now left.
  - intros x [<-|[]]. right. now left.
Defined.

(** ** The API block *)

Lemma prefix_append (p x : string) : String.prefix p (p +++ x) = true.
Proof.
  induction p as [|c p IH]; cbn; [now destruct x|].
  destruct (ascii_dec c c); [assumption | contradiction].
Qed.

Lemma api_item_shape (item : json) (l l' : list Candidate) :
  api_item item l = Return l' ->
  Forall api_shaped l -> Forall api_shaped l' /\ length l' <= S (length l).
Proof.
  unfold api_item.
  destruct (Py.get item "story" (JObj [])) as [story|e]; cbn [bind]; [|discriminate].
  destruct (Py.get story "headline" JNull) as [headline|e]; cbn [bind]; [|discriminate].
  destruct (Py.truthy headline) eqn:Ht.
  - destruct (Py.get story "slug" JNull) as [slug|e]; cbn [bind]; [|discriminate].
    intros [= <-] Hall. split.
    + apply Forall_app. split; [assumption|]. constructor; [|constructor].
      split; [exact Ht|].
      exact (prefix_append "https://www.prothomalo.com/" (Py.str slug)).
    + rewrite length_app. cbn. lia.
  - intros [= <-] Hall. split; [assumption | lia].
Qed.

Lemma api_items_shape (items : list json) (l : list Candidate) :
  Forall api_shaped l ->
  Forall api_shaped (fst (api_items items l)) /\
  length (fst (api_items items l)) <= length l + length items.
Proof.
  revert l. induction items as [|item items IH]; intros l Hall; cbn [api_items].
  - cbn. split; [assumption | lia].
  - destruct (api_item item l) as [l'|e] eqn:Hi; cbn [fst].
    + destruct (api_item_shape _ _ _ Hi Hall) as [Hall' Hlen].
      destruct (IH l' Hall') as [? ?]. split; [assumption | cbn; lia].
    + split; [assumption | cbn; lia].
Qed.

(** X16: every candidate of the API block has a headline that is true
    in Python and a link under [https://www.prothomalo.com/]; there are
    no more candidates than items in the answer; a request that fails
    leaves no candidate; a story with a headline and no slug gets the
    link [https://www.prothomalo.com/None]. *)
Theorem api_block_candidates (w : World) (slug : string) :
  Forall (fun c => Py.truthy (title c) = true /\
                   PyStr.startswith "https://www.prothomalo.com/" (link c) = true)
         (fst (api_mode w slug)) /\
  (forall items, api_fetch w slug = Return items ->
                 length (fst (api_mode w slug)) <= length items) /\
  (forall e, api_fetch w slug = Raise e -> api_mode w slug = ([], Some e)) /\
  (forall headline news,
     Py.truthy headline = true ->
     api_item (JObj [("story", JObj [("headline", headline)])]) news
     = Return (news ++ [{| title := headline;
                           link := "https://www.prothomalo.com/None" |}])).
Proof.
  unfold api_mode. split; [|split; [|split]].
  - destruct (api_fetch w slug) as [items|e]; [|constructor].
    apply (api_items_shape items []). constructor.
  - intros items ->. apply (api_items_shape items []). constructor.
  - now intros e ->.
  - intros headline news Ht. unfold api_item. cbn. now rewrite Ht.
Qed.

Lemma api_block_candidates_witness :
  api_mode (Lab.with_api api_broken) "business"
  = ([{| title := JStr "Budget passed";
         link := "https://www.prothomalo.com/business/budget-passed" |}],
     Some AttributeError) /\
  length (fst (api_mode (Lab.with_api api_broken) "business")) <= 2 /\
  api_item (JObj [("story", JObj [("headline", JInt 7)])]) []
  = Return [{| title := JInt 7; link := "https://www.prothomalo.com/None" |}].
Proof.
  split; [reflexivity|]. split.
  - exact (proj1 (proj2 (api_block_candidates (Lab.with_api api_broken) "business"))
                 _ eq_refl).
  - exact (proj2 (proj2 (proj2 (api_block_candidates (Lab.with_api api_broken)
                                  "business")))
                 (JInt 7) [] eq_refl).
Defined.

(** ** What the heuristic mode does with the candidates of the API block *)

Lemma scan_links_extends (w : World) (url : string) (links : list Anchor)
    (l : list Candidate) :
  exists extra, fst (scan_links w url links l) = l ++ extra.
Proof.
  revert l. induction links as [|a rest IH]; intros l; cbn [scan_links].
  - exists []. now rewrite app_nil_r.
  - destruct (scan_link w url a l) as [l'|e] eqn:Hs; cbn [fst].
    + assert (exists d, l' = l ++ d) as [d ->].
      { destruct (scan_link_cases _ _ _ _ _ Hs) as [->|[h [_ [_ [_ ->]]]]];
          [exists []; now rewrite app_nil_r | eauto]. }
      destruct (6 <=? length (l ++ d)); cbn [fst]; [eauto|].
      destruct (IH (l ++ d)) as [extra ->]. exists (d ++ extra).
      now rewrite app_assoc.
    + exists []. now rewrite app_nil_r.
Qed.

(** X17: for a URL of the API outlet the result starts with the
    candidates the API block collected; when that block ended in an
    exception and the page cannot be fetched, the call returns those
    candidates and logs the failure. *)
Theorem api_leftovers_survive (w : World) (url source_name : string)
    (SYSTEM_LOGS0 : list string) (p : ParseResult) :
  url <> EmptyString ->
  PyStr.contains "prothomalo" url = true ->
  urlparse w url = Return p ->
  (exists extra,
     fst (universal_intercept w url source_name SYSTEM_LOGS0)
     = Return (fst (api_mode w (slug_of url p)) ++ extra)) /\
  (forall e e',
     snd (api_mode w (slug_of url p)) = Some e ->
     get_anchors w url = Raise e' ->
     universal_intercept w url source_name SYSTEM_LOGS0
     = (Return (fst (api_mode w (slug_of url p))),
        add_log w ("INTERCEPT_FAILURE: " +++ source_name +++ " unreachable.")
                SYSTEM_LOGS0)).
Proof.
  intros Hne Hc Hp. apply String.eqb_neq in Hne.
  unfold universal_intercept. rewrite Hne, Hc, Hp.
  destruct (api_mode w (slug_of url p)) as [l o]. cbn [fst snd]. split.
  - assert (exists extra,
              fst (heuristic_mode w url source_name l SYSTEM_LOGS0) = l ++ extra)
      as [extra Hex].
    { rewrite heuristic_mode_fst. destruct (get_anchors w url) as [links|e].
      - apply scan_links_extends.
      - exists []. now rewrite app_nil_r. }
    destruct l as [|x l], o as [e|];
      try (exists []; now rewrite app_nil_r);
      destruct (heuristic_mode w url source_name _ SYSTEM_LOGS0) as [r lg];
      cbn [fst] in *; exists extra; now rewrite Hex.
  - intros e e' -> Hg. unfold heuristic_mode. rewrite Hg.
    now destruct l.
Qed.

Lemma api_leftovers_survive_witness :
  universal_intercept (Lab.with_api api_broken)
    "https://www.prothomalo.com/business" "Prothom Alo" []
  = (Return [{| title := JStr "Budget passed";
                link := "https://www.prothomalo.com/business/budget-passed" |}],
     ["[12:00:00] INTERCEPT_FAILURE: Prothom Alo unreachable."]).
Proof.
  exact (proj2 (api_leftovers_survive (Lab.with_api api_broken)
                  "https://www.prothomalo.com/business" "Prothom Alo" []
                  {| scheme := "https"; netloc := "www.prothomalo.com";
                     path := "/business" |}
                  ltac:(discriminate) eq_refl eq_refl)
               AttributeError RequestException eq_refl eq_refl).
Defined.

(** ** Well-formed entries and items *)









(** ** The dossier *)



Lemma section_one_no_sector_heading (sources : list string) (cache : list IntelItem) :
  filter is_sector_heading (section_one sources cache) = [].
Proof.
  unfold section_one. induction cache as [|n l IH]; cbn; [reflexivity|].
  destruct (in_section_one sources n); cbn; assumption.
Qed.

Lemma sector_part_heading (w : World) (sources sectors : list string) (sec : string)
    (cache : list IntelItem) :
  filter is_sector_heading (sector_part w sources sectors sec cache)
  = if str_in sec sectors
    then [Heading (JStr ("SECTOR: " +++ upper w sec)) 2 false] else [].
Proof.
  unfold sector_part. destruct (str_in sec sectors); [|reflexivity].
  cbn. f_equal. induction cache as [|n l IH]; cbn; [reflexivity|].
  destruct (in_sector sources sec n); cbn; assumption.
Qed.

(** X19: the sector headings of the dossier are those of Politics,
    National and Economy that were asked for, in this order whatever
    the order of the request; any other sector asked for has none. *)
Theorem dossier_sector_order (w : World) (sources sectors : list string)
    (cache_one : list IntelItem) (cache_two : string -> list IntelItem) :
  filter is_sector_heading
         (generate_intel_doc w sources sectors cache_one cache_two)
  = map (fun sec => Heading (JStr ("SECTOR: " +++ upper w sec)) 2 false)
        (filter (fun sec => str_in sec sectors) ["Politics"; "National"; "Economy"]).
Proof.
  unfold generate_intel_doc, SECTOR_ORDER.
  rewrite !filter_app, section_one_no_sector_heading. cbn [filter is_sector_heading app flat_map].
  rewrite !filter_app, !sector_part_heading. cbn.
  destruct (str_in "Politics" sectors), (str_in "National" sectors),
    (str_in "Economy" sectors); reflexivity.
Qed.

Lemma section_one_length (sources : list string) (cache : list IntelItem) :
  length (section_one sources cache)
  = 3 * length (filter (in_section_one sources) cache).
Proof.
  unfold section_one. induction cache as [|n l IH]; cbn [flat_map filter]; [reflexivity|].
  rewrite length_app, IH. destruct (in_section_one sources n); cbn [length]; lia.
Qed.

Lemma sector_part_length (w : World) (sources sectors : list string) (sec : string)
    (cache : list IntelItem) :
  length (sector_part w sources sectors sec cache)
  = if str_in sec sectors
    then 1 + 2 * length (filter (in_sector sources sec) cache) else 0.
Proof.
  unfold sector_part. destruct (str_in sec sectors); [|reflexivity].
  cbn [length].
  assert (forall f : IntelItem -> list Block,
            (forall n, length (f n) = 2) ->
            length (flat_map (fun n => if in_sector sources sec n then f n else [])
                             cache)
            = 2 * length (filter (in_sector sources sec) cache)) as Hlen.
  { intros f Hf. induction cache as [|n l IH]; cbn [flat_map filter]; [reflexivity|].
    rewrite length_app, IH.
    destruct (in_sector sources sec n); cbn [length]; rewrite ?Hf; lia. }
  rewrite (Hlen (fun n => [BoldRun ("[" +++ source n +++ "] "
                                    +++ Py.str (item_title n));
                           Paragraph (summary n) None])); [lia | reflexivity].
Qed.

(** X20: the dossier holds three fixed headings, three blocks for each
    item of section I, and for each sector asked for among Politics,
    National and Economy one heading and two blocks for each of its
    items. *)
Theorem dossier_size (w : World) (sources sectors : list string)
    (cache_one : list IntelItem) (cache_two : string -> list IntelItem) :
  length (generate_intel_doc w sources sectors cache_one cache_two)
  = 3 + 3 * length (filter (in_section_one sources) cache_one)
    + list_sum
        (map (fun sec =>
                if str_in sec sectors
                then 1 + 2 * length (filter (in_sector sources sec) (cache_two sec))
                else 0)
             ["Politics"; "National"; "Economy"]).
Proof.
  unfold generate_intel_doc, SECTOR_ORDER.
  cbn [app flat_map length map list_sum].
  rewrite !length_app, section_one_length. cbn [length].
  rewrite !length_app, !sector_part_length. cbn [length].
  unfold list_sum. cbn [fold_right].
  destruct (str_in "Politics" sectors), (str_in "National" sectors),
    (str_in "Economy" sectors); lia.
Qed.
